(** * Draghost: the coin economy of the bot hosting platform

    A shallow embedding of the Express routes of the server (register, login,
    verify-email, claim-daily-coins, bots, community messages) over a model
    of the PostgreSQL schema they run against (tables, CHECK / UNIQUE /
    length constraints and the plpgsql triggers), followed by the properties
    of the coin ledger, the referral program, the daily claim, the
    deployment gate and the identity routes.

    Every [pool.query] of the server is one autocommitted statement: the
    routes open no transaction.  A statement is atomic together with the
    triggers it fires; a statement that raises leaves the database as it
    was, and the route's [catch] answers 500 with whatever the earlier
    statements of the same route already committed. *)

From Stdlib Require Import List String Ascii ZArith Bool Lia.
Import ListNotations.

Local Open Scope string_scope.
Local Open Scope Z_scope.

(** ** JavaScript values read from a result row *)

(** What node-postgres hands over for a column: [null], a string, a number,
    or a [Date] object.  A [Date] carries the ISO text of the day it was
    parsed from. *)
Inductive js_value : Type :=
| JNull
| JString (s : string)
| JNumber (z : Z)
| JDate (iso : string).

(** [a === b].  No coercion: values of different types are never equal.  A
    [Date] is an object, compared by identity; the one the driver builds for
    a row is a fresh object, identical to no other value. *)
Definition strict_eq (a b : js_value) : bool :=
  match a, b with
  | JNull, JNull => true
  | JString s, JString t => String.eqb s t
  | JNumber x, JNumber y => Z.eqb x y
  | _, _ => false
  end.

(** The parser node-postgres registers for the DATE type (oid 1082) unless
    [types.setTypeParser] replaces it: the text of the column becomes a
    [Date] object.  The server installs no parser of its own. *)
Definition pg_default_parse_date (text : string) : js_value := JDate text.

(** The alternative a deployment can install: DATE columns stay text. *)
Definition pg_text_parse_date (text : string) : js_value := JString text.

(** ** Schema: rows *)

Definition uuid := nat.
Bind Scope nat_scope with uuid.

(** [users] (columns [created_at] and [updated_at], which no route reads,
    are left out; a DATE is kept as its ISO text, YYYY-MM-DD). *)
Record user : Type := mkUser {
  id : uuid;
  username : string;
  email : string;
  password : string;
  referral_code : string;
  referrer_id : option uuid;
  verification_token : option string;
  is_verified : bool;
  is_admin : bool;
  coins : Z;
  last_coin_claim : option string
}.

Inductive bot_status : Type :=
| pending | deploying | deployed | failed | stopped.

Record bot : Type := mkBot {
  bot_id : uuid;
  bot_user_id : uuid;
  bot_name : string;
  repo_url : string;
  env_vars : option string;
  bot_description : option string;
  bot_status_of : bot_status
}.

Record community_message : Type := mkMessage {
  msg_id : uuid;
  msg_user_id : uuid;
  message : string
}.

Inductive transaction_type : Type :=
| daily_claim | referral_bonus | bot_deployment | admin_grant | purchase.

Record coin_transaction : Type := mkTx {
  tx_user_id : uuid;
  amount : Z;
  tx_type : transaction_type;
  tx_description : string;
  related_bot_id : option uuid
}.

Record referral : Type := mkReferral {
  ref_referrer_id : uuid;
  referred_id : uuid;
  bonus_given : bool
}.

(** The database: one list of rows per table, in insertion order, and the
    source of fresh primary keys ([uuid_generate_v4()]). *)
Record db : Type := mkDb {
  users : list user;
  bots : list bot;
  community_messages : list community_message;
  coin_transactions : list coin_transaction;
  referrals : list referral;
  next_uuid : uuid
}.

Definition with_users (d : db) (us : list user) : db :=
  mkDb us (bots d) (community_messages d) (coin_transactions d)
       (referrals d) (next_uuid d).

Definition with_bots (d : db) (bs : list bot) : db :=
  mkDb (users d) bs (community_messages d) (coin_transactions d)
       (referrals d) (next_uuid d).

Definition set_coins (u : user) (c : Z) : user :=
  mkUser (id u) (username u) (email u) (password u) (referral_code u)
         (referrer_id u) (verification_token u) (is_verified u) (is_admin u)
         c (last_coin_claim u).

Definition set_last_coin_claim (u : user) (day : option string) : user :=
  mkUser (id u) (username u) (email u) (password u) (referral_code u)
         (referrer_id u) (verification_token u) (is_verified u) (is_admin u)
         (coins u) day.

Definition set_is_verified (u : user) (b : bool) : user :=
  mkUser (id u) (username u) (email u) (password u) (referral_code u)
         (referrer_id u) (verification_token u) b (is_admin u)
         (coins u) (last_coin_claim u).

Definition set_bot_status (b : bot) (s : bot_status) : bot :=
  mkBot (bot_id b) (bot_user_id b) (bot_name b) (repo_url b) (env_vars b)
        (bot_description b) s.

(** ** Schema: column constraints *)

Definition chars (s : string) : list ascii := list_ascii_of_string s.

Definition in_range (lo hi : nat) (c : ascii) : bool :=
  let n := nat_of_ascii c in (Nat.leb lo n && Nat.leb n hi)%bool.

Definition is_alpha (c : ascii) : bool :=
  (in_range 65 90 c || in_range 97 122 c)%bool.

Definition is_alnum (c : ascii) : bool :=
  (is_alpha c || in_range 48 57 c)%bool.

Definition one_of (set : string) (c : ascii) : bool :=
  existsb (Ascii.eqb c) (chars set).

(** VARCHAR(n). *)
Definition varchar (n : nat) (s : string) : bool :=
  Nat.leb (String.length s) n.

(** INTEGER: a value out of the 32-bit range raises, it does not wrap. *)
Definition int4 (z : Z) : bool :=
  ((-2147483648 <=? z) && (z <=? 2147483647))%bool.

(** CHECK (username ~ '^[a-zA-Z0-9_]+$'). *)
Definition valid_username (s : string) : bool :=
  (negb (String.eqb s "")
   && forallb (fun c => is_alnum c || one_of "_" c) (chars s))%bool.

(** The tail of [valid_email] after the at sign:
    [[A-Za-z0-9.-]+\.[A-Za-z]{2,}$], trying every dot as the last one. *)
Fixpoint email_domain (seen : nat) (l : list ascii) : bool :=
  match l with
  | [] => false
  | c :: r =>
      (Ascii.eqb c "." && Nat.ltb 0 seen && Nat.leb 2 (List.length r)
       && forallb is_alpha r)
      || ((is_alnum c || one_of ".-" c) && email_domain (S seen) r)
  end%bool.

Fixpoint email_local (seen : nat) (l : list ascii) : bool :=
  match l with
  | [] => false
  | c :: r =>
      (Ascii.eqb c "@" && Nat.ltb 0 seen && email_domain 0 r)
      || ((is_alnum c || one_of "._%+-" c) && email_local (S seen) r)
  end%bool.

(** CHECK (email ~ '^[A-Za-z0-9._%+-]+@[A-Za-z0-9.-]+\.[A-Za-z]{2,}$'). *)
Definition valid_email (s : string) : bool := email_local 0 (chars s).

(** CHECK (repo_url ~ '^https?://github\.com/'). *)
Definition valid_repo_url (s : string) : bool :=
  (String.prefix "http://github.com/" s
   || String.prefix "https://github.com/" s)%bool.

(** coins INTEGER DEFAULT 0 CHECK (coins >= 0). *)
Definition coins_ok (c : Z) : bool := (int4 c && (0 <=? c))%bool.

(** Everything the [users] table demands of a row that is being inserted,
    uniqueness apart. *)
Definition users_row_ok (u : user) : bool :=
  (varchar 50 (username u) && varchar 255 (email u)
   && varchar 255 (password u) && varchar 20 (referral_code u)
   && match verification_token u with
      | Some t => varchar 100 t
      | None => true
      end
   && coins_ok (coins u)
   && valid_username (username u) && valid_email (email u))%bool.

(** UNIQUE (username), UNIQUE (email), UNIQUE (referral_code). *)
Definition users_unique (u : user) (us : list user) : bool :=
  negb (existsb (fun v => String.eqb (username v) (username u)
                          || String.eqb (email v) (email u)
                          || String.eqb (referral_code v) (referral_code u))
                us)%bool.

Definition has_user (i : uuid) (us : list user) : bool :=
  existsb (fun v => Nat.eqb (id v) i) us.

(** ** Rows selected by a WHERE clause *)

Definition by_id (i : uuid) (u : user) : bool := Nat.eqb (id u) i.
Definition by_email (e : string) (u : user) : bool := String.eqb (email u) e.
Definition by_referral_code (c : string) (u : user) : bool :=
  String.eqb (referral_code u) c.

(** [verification_token = $1]: NULL on either side matches nothing. *)
Definition by_verification_token (t : option string) (u : user) : bool :=
  match t, verification_token u with
  | Some a, Some b => String.eqb b a
  | _, _ => false
  end.

(** [rows[0]] of a SELECT over [users]. *)
Definition select_user (cond : user -> bool) (d : db) : option user :=
  find cond (users d).

(** ** The ledger and the balance *)

(** [SELECT SUM(amount) FROM coin_transactions WHERE user_id = i]. *)
Definition ledger_sum (i : uuid) (d : db) : Z :=
  fold_right Z.add 0
    (map amount (filter (fun t => Nat.eqb (tx_user_id t) i)
                        (coin_transactions d))).

Definition balance (i : uuid) (d : db) : option Z :=
  option_map coins (select_user (by_id i) d).

Definition insert_coin_transaction (t : coin_transaction) (d : db) : db :=
  mkDb (users d) (bots d) (community_messages d)
       (coin_transactions d ++ [t]) (referrals d) (next_uuid d).

Definition is_distinct_from (a b : option string) : bool :=
  match a, b with
  | None, None => false
  | Some x, Some y => negb (String.eqb x y)
  | _, _ => true
  end.

(** ** What the server is linked and deployed with

    bcryptjs and jsonwebtoken are external; so is the type parser the
    driver applies to DATE columns.  [triggers] tells whether the plpgsql
    functions and triggers of the PostgreSQL schema are installed: the
    MySQL variant of the schema declares the same tables and constraints
    and no trigger, and the migration script cuts the schema at every
    semicolon, dollar-quoted function bodies included. *)
Class Platform : Type := mkPlatform {
  bcrypt_hash : string -> string;
  bcrypt_compare : string -> string -> bool;
  jwt_sign : uuid -> string -> string;
  jwt_verify : string -> option (uuid * string);
  parse_date : string -> js_value;
  triggers : bool
}.

(** What one request draws from the outside: the two [Math.random()]
    strings of a registration, the UTC day of the clock as
    [toISOString().split('T')[0]] renders it, and whether the mail
    transport accepts the message. *)
Record io : Type := mkIo {
  random_suffix : string;
  random_token : string;
  today : string;
  mail_delivered : bool
}.

Record bot_request : Type := mkBotRequest {
  botName : option string;
  repoUrl : option string;
  envVars : option string;
  description : option string
}.

Inductive json : Type :=
| JsonError (error : string)
| JsonMessage (msg : string)
| JsonRegistered (token : string) (uid : uuid) (name mail : string) (c : Z)
| JsonLoggedIn (token : string) (uid : uuid) (name mail : string) (c : Z)
               (isAdmin : bool)
| JsonCoins (c : Z) (msg : string)
| JsonBot (msg : string) (b : bot)
| JsonChat (m : community_message) (name : string).

Record response : Type := respond { status : nat; body : json }.

Section Statements.

Context {P : Platform}.

(** *** Triggers *)

(** [handle_daily_coin_claim], AFTER UPDATE ON users FOR EACH ROW. *)
Definition handle_daily_coin_claim (OLD NEW : user) (d : db) : db :=
  match last_coin_claim NEW with
  | Some _ =>
      if is_distinct_from (last_coin_claim OLD) (last_coin_claim NEW)
      then insert_coin_transaction
             (mkTx (id NEW) 10 daily_claim "Daily coin claim" None) d
      else d
  | None => d
  end.

(** [UPDATE users SET ... WHERE cond RETURNING *].  The SET clauses of the
    server and of the triggers assign [coins], [is_verified] and
    [last_coin_claim] only, so of the table's constraints the new rows can
    break none but the range and the CHECK of [coins]. *)
Definition update_users (cond : user -> bool) (set : user -> user) (d : db)
  : option (list user * db) :=
  let hit := filter cond (users d) in
  if forallb (fun u => coins_ok (coins (set u))) hit then
    let d1 := with_users d (map (fun u => if cond u then set u else u)
                                (users d)) in
    let d2 := if triggers
              then fold_left
                     (fun acc u => handle_daily_coin_claim u (set u) acc)
                     hit d1
              else d1 in
    Some (map set hit, d2)
  else None.

Definition add_coins (n : Z) (u : user) : user := set_coins u (coins u + n).

(** [INSERT INTO referrals]; UNIQUE(referred_id). *)
Definition insert_referrals (r : referral) (d : db) : option db :=
  if existsb (fun x => Nat.eqb (referred_id x) (referred_id r)) (referrals d)
  then None
  else Some (mkDb (users d) (bots d) (community_messages d)
                  (coin_transactions d) (referrals d ++ [r]) (next_uuid d)).

(** [handle_referral_bonus], AFTER INSERT ON users FOR EACH ROW. *)
Definition handle_referral_bonus (NEW : user) (d : db) : option db :=
  match referrer_id NEW with
  | None => Some d
  | Some referrer =>
      match update_users (by_id referrer) (add_coins 100) d with
      | None => None
      | Some (_, d1) =>
          match insert_referrals (mkReferral referrer (id NEW) true) d1 with
          | None => None
          | Some d2 =>
              let d3 := insert_coin_transaction
                          (mkTx referrer 100 referral_bonus
                                ("Referral bonus for new user: "
                                   ++ username NEW) None) d2 in
              match update_users (by_id (id NEW)) (add_coins 50) d3 with
              | None => None
              | Some (_, d4) =>
                  Some (insert_coin_transaction
                          (mkTx (id NEW) 50 referral_bonus
                                "Welcome bonus from referral" None) d4)
              end
          end
      end
  end.

(** *** INSERT statements *)

(** [INSERT INTO users (username, email, password, referral_code,
    referrer_id, verification_token, coins) ... RETURNING ...]: the row
    returned is the row as inserted, before the AFTER trigger ran. *)
Definition insert_users (name mail pw code : string) (referrer : option uuid)
           (token : option string) (c : Z) (d : db) : option (user * db) :=
  let NEW := mkUser (next_uuid d) name mail pw code referrer token
                    false false c None in
  if (users_row_ok NEW && users_unique NEW (users d)
      && negb (has_user (id NEW) (users d))
      && match referrer with
         | Some r => has_user r (users d)
         | None => true
         end)%bool
  then
    let d1 := mkDb (users d ++ [NEW]) (bots d) (community_messages d)
                   (coin_transactions d) (referrals d) (S (next_uuid d)) in
    if triggers
    then match handle_referral_bonus NEW d1 with
         | Some d2 => Some (NEW, d2)
         | None => None
         end
    else Some (NEW, d1)
  else None.

(** [INSERT INTO bots (user_id, name, repo_url, env_vars, description,
    status) VALUES (..., 'pending') RETURNING *].  [env_vars] holds the
    JSON text of the object the caller sent, if any. *)
Definition insert_bots (userId : uuid) (r : bot_request) (d : db)
  : option (bot * db) :=
  match botName r, repoUrl r with
  | Some n, Some url =>
      if (varchar 100 n && varchar 500 url && valid_repo_url url
          && has_user userId (users d))%bool
      then
        let b := mkBot (next_uuid d) userId n url (envVars r)
                       (description r) pending in
        Some (b, mkDb (users d) (bots d ++ [b]) (community_messages d)
                      (coin_transactions d) (referrals d) (S (next_uuid d)))
      else None
  | _, _ => None
  end.

(** [INSERT INTO community_messages (user_id, message) ... RETURNING *];
    CHECK (LENGTH(message) BETWEEN 1 AND 1000). *)
Definition insert_community_messages (userId : uuid) (m : option string)
           (d : db) : option (community_message * db) :=
  match m with
  | Some text =>
      if (Nat.leb 1 (String.length text) && Nat.leb (String.length text) 1000
          && has_user userId (users d))%bool
      then
        let row := mkMessage (next_uuid d) userId text in
        Some (row, mkDb (users d) (bots d) (community_messages d ++ [row])
                        (coin_transactions d) (referrals d)
                        (S (next_uuid d)))
      else None
  | None => None
  end.

End Statements.

(** ** The routes *)

(** [s.split(sep)] for a one-character separator. *)
Fixpoint split (sep : ascii) (s : string) : list string :=
  match s with
  | EmptyString => [EmptyString]
  | String c r =>
      if Ascii.eqb c sep then EmptyString :: split sep r
      else match split sep r with
           | h :: t => String c h :: t
           | [] => [String c EmptyString]
           end
  end.

(** [authHeader && authHeader.split(' ')[1]], then [!token]. *)
Definition bearer (authHeader : option string) : option string :=
  match authHeader with
  | None => None
  | Some h =>
      if String.eqb h "" then None
      else match nth_error (split " " h) 1 with
           | Some t => if String.eqb t "" then None else Some t
           | None => None
           end
  end.

Section Routes.

Context {P : Platform}.

(** The [authenticateToken] middleware in front of a route body [next]. *)
Definition authenticateToken (authHeader : option string)
           (next : uuid -> db -> response * db) (d : db) : response * db :=
  match bearer authHeader with
  | None => (respond 401 (JsonError "Access token required"), d)
  | Some token =>
      match jwt_verify token with
      | None => (respond 403 (JsonError "Invalid token"), d)
      | Some (userId, _) => next userId d
      end
  end.

(** The referrer a registration resolves: [if (referralCode)] skips an
    absent and an empty code; an unknown code leaves [referrerId] null. *)
Definition resolve_referrer (referralCode : option string) (d : db)
  : option uuid :=
  match referralCode with
  | Some code =>
      if String.eqb code "" then None
      else option_map id (select_user (by_referral_code code) d)
  | None => None
  end.

(** POST /api/register. *)
Definition post_register (o : io) (name mail pw : string)
           (referralCode : option string) (d : db) : response * db :=
  if existsb (fun u => String.eqb (email u) mail
                       || String.eqb (username u) name)%bool (users d)
  then (respond 400 (JsonError "User already exists"), d)
  else
    let hashedPassword := bcrypt_hash pw in
    let referrerId := resolve_referrer referralCode d in
    let referralCodeNew := name ++ random_suffix o in
    let verificationToken := random_token o in
    match insert_users name mail hashedPassword referralCodeNew referrerId
                       (Some verificationToken)
                       (match referrerId with Some _ => 50 | None => 0 end)
                       d with
    | None => (respond 500 (JsonError "Registration failed"), d)
    | Some (row, d1) =>
        let bonus :=
          match referrerId with
          | Some r => option_map snd (update_users (by_id r) (add_coins 100) d1)
          | None => Some d1
          end in
        match bonus with
        | None => (respond 500 (JsonError "Registration failed"), d1)
        | Some d2 =>
            if mail_delivered o
            then (respond 200
                    (JsonRegistered (jwt_sign (id row) (email row))
                       (id row) (username row) (email row) (coins row)), d2)
            else (respond 500 (JsonError "Registration failed"), d2)
        end
    end.

(** POST /api/login. *)
Definition post_login (mail pw : string) (d : db) : response * db :=
  match select_user (by_email mail) d with
  | None => (respond 400 (JsonError "Invalid credentials"), d)
  | Some u =>
      if negb (is_verified u)
      then (respond 400 (JsonError "Please verify your email first"), d)
      else if negb (bcrypt_compare pw (password u))
      then (respond 400 (JsonError "Invalid credentials"), d)
      else (respond 200
              (JsonLoggedIn (jwt_sign (id u) (email u)) (id u) (username u)
                 (email u) (coins u) (is_admin u)), d)
  end.

(** GET /api/verify-email. *)
Definition get_verify_email (token : option string) (d : db)
  : response * db :=
  match update_users (by_verification_token token)
                     (fun u => set_is_verified u true) d with
  | None => (respond 500 (JsonError "Verification failed"), d)
  | Some ([], d1) =>
      (respond 400 (JsonError "Invalid verification token"), d1)
  | Some (_ :: _, d1) =>
      (respond 200 (JsonMessage "Email verified successfully"), d1)
  end.

(** The value of [lastClaim.rows[0].last_coin_claim]. *)
Definition read_last_coin_claim (u : user) : js_value :=
  match last_coin_claim u with
  | Some text => parse_date text
  | None => JNull
  end.

Definition claim (day : string) (u : user) : user :=
  set_last_coin_claim (add_coins 10 u) (Some day).

(** POST /api/claim-daily-coins, behind [authenticateToken].  Reading
    [rows[0]] of an empty result throws, which the [catch] turns into 500. *)
Definition claim_daily_coins (o : io) (userId : uuid) (d : db)
  : response * db :=
  match select_user (by_id userId) d with
  | None => (respond 500 (JsonError "Failed to claim coins"), d)
  | Some lastClaim =>
      if strict_eq (read_last_coin_claim lastClaim) (JString (today o))
      then (respond 400 (JsonError "Already claimed coins today"), d)
      else
        match update_users (by_id userId) (claim (today o)) d with
        | None => (respond 500 (JsonError "Failed to claim coins"), d)
        | Some (_, d1) =>
            match select_user (by_id userId) d1 with
            | None => (respond 500 (JsonError "Failed to claim coins"), d1)
            | Some newBalance =>
                (respond 200
                   (JsonCoins (coins newBalance)
                      "10 coins claimed successfully"), d1)
            end
        end
  end.

(** POST /api/bots, behind [authenticateToken]. *)
Definition deploy_bot (userId : uuid) (r : bot_request) (d : db)
  : response * db :=
  match select_user (by_id userId) d with
  | None => (respond 500 (JsonError "Failed to deploy bot"), d)
  | Some userResult =>
      if coins userResult <? 50
      then (respond 400 (JsonError "Insufficient coins"), d)
      else
        match update_users (by_id userId) (add_coins (-50)) d with
        | None => (respond 500 (JsonError "Failed to deploy bot"), d)
        | Some (_, d1) =>
            match insert_bots userId r d1 with
            | None => (respond 500 (JsonError "Failed to deploy bot"), d1)
            | Some (b, d2) =>
                (respond 200 (JsonBot "Bot deployment started" b), d2)
            end
        end
  end.

(** The [setTimeout] callback of POST /api/bots, five seconds later:
    [UPDATE bots SET status = 'deployed' WHERE id = $2]. *)
Definition deployment_timer (botId : uuid) (d : db) : db :=
  with_bots d (map (fun b => if Nat.eqb (bot_id b) botId
                             then set_bot_status b deployed else b)
                   (bots d)).

(** POST /api/community/messages, behind [authenticateToken]. *)
Definition send_community_message (userId : uuid) (m : option string)
           (d : db) : response * db :=
  match insert_community_messages userId m d with
  | None => (respond 500 (JsonError "Failed to send message"), d)
  | Some (row, d1) =>
      match select_user (by_id (msg_user_id row)) d1 with
      | None => (respond 500 (JsonError "Failed to send message"), d1)
      | Some u => (respond 200 (JsonChat row (username u)), d1)
      end
  end.

(** *** The server as a transition system *)

Inductive request : Type :=
| POST_register (name mail pw : string) (referralCode : option string)
| POST_login (mail pw : string)
| GET_verify_email (token : option string)
| POST_claim_daily_coins (authorization : option string)
| POST_bots (authorization : option string) (r : bot_request)
| POST_community_messages (authorization : option string)
                          (m : option string).

Definition handle (o : io) (r : request) (d : db) : response * db :=
  match r with
  | POST_register name mail pw code => post_register o name mail pw code d
  | POST_login mail pw => post_login mail pw d
  | GET_verify_email token => get_verify_email token d
  | POST_claim_daily_coins auth =>
      authenticateToken auth (claim_daily_coins o) d
  | POST_bots auth r =>
      authenticateToken auth (fun userId => deploy_bot userId r) d
  | POST_community_messages auth m =>
      authenticateToken auth (fun userId => send_community_message userId m) d
  end.

(** What happens to the database: a request is served, or a deployment
    timer fires. *)
Inductive event : Type :=
| Served (o : io) (r : request)
| TimerFired (botId : uuid).

Definition step (d : db) (e : event) : db :=
  match e with
  | Served o r => snd (handle o r d)
  | TimerFired botId => deployment_timer botId d
  end.

Definition run (es : list event) (d : db) : db := fold_left step es d.

End Routes.

(** The database right after the tables are created, before any row. *)
Definition empty_db : db := mkDb [] [] [] [] [] 0%nat.

(** The two rows the schema file inserts after creating the tables. *)
Definition seeded_db : db :=
  mkDb [ mkUser 0 "admin" "admin@bothost.com"
           "$2a$12$rD9P2bW6X3L1V7Q8Z9Y0OuKj2N3L4M5Q6R7S8T9U0V1W2X3Y4Z5"
           "ADMIN123" None None true true 1000 None;
         mkUser 1 "testuser" "test@example.com"
           "$2a$12$rD9P2bW6X3L1V7Q8Z9Y0OuKj2N3L4M5Q6R7S8T9U0V1W2X3Y4Z5"
           "TEST456" None None true false 100 None ]
       [] [] [] [] 2%nat.

(** ** A concrete platform to run the routes on *)

Fixpoint unary (n : nat) : string :=
  match n with
  | O => EmptyString
  | S k => String "i" (unary k)
  end.

Fixpoint escape (s : string) : string :=
  match s with
  | EmptyString => EmptyString
  | String c r =>
      if Ascii.eqb c " " then String "_" (String "s" (escape r))
      else if Ascii.eqb c "_" then String "_" (String "_" (escape r))
      else String c (escape r)
  end.

Fixpoint unescape (s : string) : string :=
  match s with
  | EmptyString => EmptyString
  | String c r =>
      if Ascii.eqb c "_"
      then match r with
           | String x r' =>
               String (if Ascii.eqb x "s" then " " else "_")%char (unescape r')
           | EmptyString => EmptyString
           end
      else String c (unescape r)
  end.

Fixpoint read_unary (s : string) : option (nat * string) :=
  match s with
  | EmptyString => None
  | String c r =>
      if Ascii.eqb c "i"
      then match read_unary r with
           | Some (n, rest) => Some (S n, rest)
           | None => None
           end
      else if Ascii.eqb c "." then Some (O, r) else None
  end.

(** A stand-in for a signed token: the claims, written without blanks. *)
Definition model_sign (userId : uuid) (mail : string) : string :=
  String "J" (unary userId ++ String "." (escape mail)).

Definition model_verify (token : string) : option (uuid * string) :=
  match token with
  | String c r =>
      if Ascii.eqb c "J"
      then match read_unary r with
           | Some (n, rest) => Some (n, unescape rest)
           | None => None
           end
      else None
  | EmptyString => None
  end.

Definition model_platform (dates : string -> js_value) (trig : bool)
  : Platform :=
  mkPlatform (fun pw => "$2a$12$" ++ pw)
             (fun pw hash => String.eqb hash ("$2a$12$" ++ pw))
             model_sign model_verify dates trig.

(** The server as it is written, on the PostgreSQL schema with and without
    its triggers. *)
Definition postgres : Platform := model_platform pg_default_parse_date true.
Definition no_triggers : Platform := model_platform pg_default_parse_date false.

(** ** Predicates the properties are stated with *)

(** Two databases that differ in [coin_transactions] at most. *)
Definition same_but_ledger (d d' : db) : Prop :=
  users d' = users d /\ bots d' = bots d
  /\ community_messages d' = community_messages d
  /\ referrals d' = referrals d /\ next_uuid d' = next_uuid d.

(** CHECK (coins >= 0), over the whole table. *)
Definition coins_nonneg (d : db) : Prop :=
  Forall (fun u => 0 <= coins u) (users d).

Definition blank_free (s : string) : bool :=
  negb (existsb (fun c => Ascii.eqb c " ") (chars s)).

(** How the [users] table may change over a statement, a route or a run:
    rows are rewritten in place, keeping their key and never leaving the
    non-negative range, and rows with a non-negative balance are added at
    the end.  No row is deleted. *)
Definition users_evolve (us us' : list user) : Prop :=
  exists (g : user -> user) (extra : list user),
    us' = (map g us ++ extra)%list
    /\ (forall u, In u us ->
                  id (g u) = id u /\ (0 <= coins u -> 0 <= coins (g u)))
    /\ Forall (fun u => 0 <= coins u) extra.

(** [UPDATE users SET coins = coins + n WHERE id = i], on the table. *)
Definition credit (i : uuid) (n : Z) (us : list user) : list user :=
  map (fun u => if by_id i u then add_coins n u else u) us.

(** The row a registration inserts. *)
Definition registered {P : Platform} (o : io) (name mail pw : string)
           (code : option string) (d : db) (c : Z) : user :=
  mkUser (next_uuid d) name mail (bcrypt_hash pw) (name ++ random_suffix o)
         (resolve_referrer code d) (Some (random_token o)) false false c None.

(** The contract of the token primitive the routes rely on: a token that
    was signed verifies to its claims (within its seven days), and it is a
    nonempty word, so it survives the split of the Authorization header. *)
Class JwtLaws (P : Platform) : Prop := {
  jwt_roundtrip : forall userId mail,
    jwt_verify (jwt_sign userId mail) = Some (userId, mail);
  jwt_word : forall userId mail,
    jwt_sign userId mail <> "" /\ blank_free (jwt_sign userId mail) = true
}.

Definition authorization (token : string) : option string :=
  Some ("Bearer " ++ token).

(** ** Runs used as examples *)

Definition valid_bot : bot_request :=
  mkBotRequest (Some "echo") (Some "https://github.com/alice/echo-bot")
               (Some "{}") None.

Definition signup_alice : event :=
  Served (mkIo "AB12CD" "k3x9tok1" "2026-11-01" true)
         (POST_register "alice" "alice@example.com" "correct horse" None).

Definition signup_bob : event :=
  Served (mkIo "XY34ZT" "p0q7tok2" "2026-11-01" true)
         (POST_register "bob" "bob@example.com" "hunter2"
                        (Some "aliceAB12CD")).

Definition on_day (day : string) : io := mkIo "" "" day true.

Definition alice_token : string := model_sign 0 "alice@example.com".

Definition alice_claims (day : string) : event :=
  Served (on_day day) (POST_claim_daily_coins (authorization alice_token)).

Definition alice_deploys : event :=
  Served (on_day "2026-11-06")
         (POST_bots (authorization alice_token) valid_bot).

(** Alice signs up and claims on five consecutive days. *)
Definition five_claims : list event :=
  [ signup_alice; alice_claims "2026-11-02"; alice_claims "2026-11-03";
    alice_claims "2026-11-04"; alice_claims "2026-11-05";
    alice_claims "2026-11-06" ].

(** ** The other routes of the server *)

(** The columns GET /api/profile selects ([created_at] apart). *)
Record profile : Type := mkProfile {
  profile_id : uuid;
  profile_username : string;
  profile_email : string;
  profile_coins : Z;
  profile_referral_code : string
}.

Definition profile_of (u : user) : profile :=
  mkProfile (id u) (username u) (email u) (coins u) (referral_code u).

(** What the read routes and the admin routes answer. *)
Inductive reply : Type :=
| ReplyError (code : nat) (error : string)
| ReplyAvailable (available : bool)
| ReplyProfile (row : option profile)
| ReplyBots (rows : list bot)
| ReplyMessages (rows : list (community_message * string))
| ReplyAdminBots (rows : list (bot * string * string))
| ReplyDone (msg : string).

Section OtherRoutes.

Context {P : Platform}.

(** [authenticateToken] once more, for a route body of any result type:
    [deny] builds the 401 and 403 answers. *)
Definition authenticated {A : Type} (deny : nat -> string -> A)
           (authHeader : option string) (next : uuid -> A) : A :=
  match bearer authHeader with
  | None => deny 401%nat "Access token required"
  | Some token =>
      match jwt_verify token with
      | None => deny 403%nat "Invalid token"
      | Some (userId, _) => next userId
      end
  end.

(** GET /api/check-username/:username. *)
Definition check_username (name : string) (d : db) : reply :=
  ReplyAvailable
    (Nat.eqb (List.length (filter (fun u => String.eqb (username u) name)
                                  (users d))) 0).

(** GET /api/check-email/:email. *)
Definition check_email (mail : string) (d : db) : reply :=
  ReplyAvailable
    (Nat.eqb (List.length (filter (by_email mail) (users d))) 0).

(** GET /api/profile, behind [authenticateToken]: [res.json(rows[0])],
    which is [undefined] when the account is gone. *)
Definition get_profile (userId : uuid) (d : db) : reply :=
  ReplyProfile (option_map profile_of (select_user (by_id userId) d)).

(** GET /api/bots, behind [authenticateToken]: [ORDER BY created_at DESC]
    over rows whose [created_at] grows with the order of insertion. *)
Definition get_bots (userId : uuid) (d : db) : reply :=
  ReplyBots (rev (filter (fun b => Nat.eqb (bot_user_id b) userId) (bots d))).

(** [community_messages m JOIN users u ON m.user_id = u.id], in the order
    of insertion of the messages. *)
Definition messages_with_username (d : db)
  : list (community_message * string) :=
  flat_map (fun m => map (fun u => (m, username u))
                         (filter (by_id (msg_user_id m)) (users d)))
           (community_messages d).

(** GET /api/community/messages, behind [authenticateToken]:
    [ORDER BY m.created_at DESC LIMIT 50]. *)
Definition get_community_messages (d : db) : reply :=
  ReplyMessages (firstn 50 (rev (messages_with_username d))).

(** [bots b JOIN users u ON b.user_id = u.id]. *)
Definition bots_with_owner (d : db) : list (bot * string * string) :=
  flat_map (fun b => map (fun u => (b, username u, email u))
                         (filter (by_id (bot_user_id b)) (users d)))
           (bots d).

(** GET /api/admin/bots, behind [authenticateToken].  Reading [rows[0]] of
    an empty result throws, which the [catch] turns into 500. *)
Definition admin_bots (userId : uuid) (d : db) : reply :=
  match select_user (by_id userId) d with
  | None => ReplyError 500 "Failed to fetch bots"
  | Some userResult =>
      if negb (is_admin userResult)
      then ReplyError 403 "Admin access required"
      else ReplyAdminBots (rev (bots_with_owner d))
  end.

(** [UPDATE bots SET env_vars = $1 WHERE id = $2]. *)
Definition update_bots_env (botId : uuid) (vars : option string) (d : db)
  : db :=
  with_bots d (map (fun b => if Nat.eqb (bot_id b) botId
                             then mkBot (bot_id b) (bot_user_id b) (bot_name b)
                                        (repo_url b) vars (bot_description b)
                                        (bot_status_of b)
                             else b)
                   (bots d)).

(** PUT /api/admin/bots/:id/env, behind [authenticateToken].  [botId] is
    the path segment read as a UUID; a segment that is no UUID makes the
    statement raise.  The route answers 200 whether or not a row matched. *)
Definition admin_update_env (userId : uuid) (botId : option uuid)
           (vars : option string) (d : db) : reply * db :=
  match select_user (by_id userId) d with
  | None => (ReplyError 500 "Failed to update environment variables", d)
  | Some userResult =>
      if negb (is_admin userResult)
      then (ReplyError 403 "Admin access required", d)
      else match botId with
           | None =>
               (ReplyError 500 "Failed to update environment variables", d)
           | Some b =>
               (ReplyDone "Environment variables updated",
                update_bots_env b vars d)
           end
  end.

(** Everything that changes the database: the events of the core, and the
    one admin route that writes. *)
Inductive action : Type :=
| Core (e : event)
| PUT_admin_bots_env (authHeader : option string) (botId : option uuid)
                     (vars : option string).

Definition act (d : db) (a : action) : db :=
  match a with
  | Core e => step d e
  | PUT_admin_bots_env authHeader botId vars =>
      snd (authenticated (fun code error => (ReplyError code error, d))
             authHeader
             (fun userId => admin_update_env userId botId vars d))
  end.

Definition acts (l : list action) (d : db) : db := fold_left act l d.

(** *** Routes as sequences of statements *)

(** What no statement of the server or of the triggers assigns: every
    column of [users] but [coins], [last_coin_claim] and [is_verified],
    and [is_verified] is only ever set. *)
Definition same_identity (u u' : user) : Prop :=
  id u' = id u /\ username u' = username u /\ email u' = email u
  /\ password u' = password u /\ referral_code u' = referral_code u
  /\ referrer_id u' = referrer_id u
  /\ verification_token u' = verification_token u
  /\ is_admin u' = is_admin u
  /\ (is_verified u = true -> is_verified u' = true).

(** One autocommitted statement of the server. *)
Inductive statement : db -> db -> Prop :=
| stmt_update_users cond set d rows d' :
    (forall u, same_identity u (set u)) ->
    update_users cond set d = Some (rows, d') -> statement d d'
| stmt_insert_users name mail pw code referrer token c d row d' :
    insert_users name mail pw code referrer token c d = Some (row, d') ->
    statement d d'
| stmt_insert_bots userId r d b d' :
    insert_bots userId r d = Some (b, d') -> statement d d'
| stmt_insert_community_messages userId m d row d' :
    insert_community_messages userId m d = Some (row, d') -> statement d d'
| stmt_update_bots_status botId d : statement d (deployment_timer botId d)
| stmt_update_bots_env botId vars d : statement d (update_bots_env botId vars d).

Inductive statements : db -> db -> Prop :=
| no_statement d : statements d d
| one_more d1 d2 d3 :
    statements d1 d2 -> statement d2 d3 -> statements d1 d3.

End OtherRoutes.

(** *** Invariants of the tables *)

(** The [users] table over any number of statements: rows are rewritten in
    place keeping their identity, no row is removed, and the rows added
    are not admins. *)
Definition accounts_kept (us us' : list user) : Prop :=
  exists (g : user -> user) (extra : list user),
    us' = (map g us ++ extra)%list
    /\ (forall u, same_identity u (g u))
    /\ Forall (fun u => is_admin u = false) extra.

(** PRIMARY KEY (id), UNIQUE (username), UNIQUE (email),
    UNIQUE (referral_code). *)
Definition keys_unique (us : list user) : Prop :=
  NoDup (map id us) /\ NoDup (map username us) /\ NoDup (map email us)
  /\ NoDup (map referral_code us).

(** The three rows the triggers write. *)
Definition credit_row (t : coin_transaction) : Prop :=
  (tx_type t = daily_claim /\ amount t = 10)
  \/ (tx_type t = referral_bonus /\ (amount t = 100 \/ amount t = 50)).

Definition pending_or_deployed (b : bot) : Prop :=
  bot_status_of b = pending \/ bot_status_of b = deployed.

(** UNIQUE (referred_id), and what a row of [referrals] stands for: a
    bonus that was given to an account whose [referrer_id] is the
    referrer of the row. *)
Definition referrals_sound (d : db) : Prop :=
  NoDup (map referred_id (referrals d))
  /\ Forall (fun r => bonus_given r = true
                      /\ exists u, In u (users d)
                                   /\ id u = referred_id r
                                   /\ referrer_id u = Some (ref_referrer_id r))
            (referrals d).

(** CHECK (LENGTH(message) BETWEEN 1 AND 1000). *)
Definition message_ok (m : community_message) : Prop :=
  (1 <= String.length (message m) <= 1000)%nat.

(** ** The migration script *)

(** Whitespace as [String.prototype.trim] sees it, among the characters
    below 256. *)
Definition js_whitespace (c : ascii) : bool :=
  existsb (Nat.eqb (nat_of_ascii c)) [9; 10; 11; 12; 13; 32; 160]%nat.

(** [stmt.trim()] as a condition: the empty string is falsy. *)
Definition trim_truthy (s : string) : bool :=
  existsb (fun c => negb (js_whitespace c)) (chars s).

(** [statements[i] + ';'] for every [i], where
    [statements = schemaSql.split(';').filter(stmt => stmt.trim())]. *)
Definition migration_statements (schemaSql : string) : list string :=
  map (fun stmt => stmt ++ ";") (filter trim_truthy (split ";" schemaSql)).

(** [hay.includes(needle)]. *)
Fixpoint includes (needle hay : string) : bool :=
  (String.prefix needle hay
   || match hay with
      | EmptyString => false
      | String _ rest => includes needle rest
      end)%bool.

Inductive migration_result : Type :=
| MigrationCompleted
| MigrationFailed (message : string).

Section Migration.

(** The database the script talks to: [query] runs one statement and
    either succeeds or raises an error with a message. *)
Variable Postgres : Type.
Variable query : string -> Postgres -> option string * Postgres.

(** The loop of [runMigrations]: an error is rethrown, and the process
    exits with code 1, unless its message includes 'already exists'. *)
Fixpoint run_statements (l : list string) (s : Postgres)
  : migration_result * Postgres :=
  match l with
  | [] => (MigrationCompleted, s)
  | sql :: rest =>
      match query sql s with
      | (None, s1) => run_statements rest s1
      | (Some message, s1) =>
          if includes "already exists" message
          then run_statements rest s1
          else (MigrationFailed message, s1)
      end
  end.

Definition runMigrations (schemaSql : string) (s : Postgres)
  : migration_result * Postgres :=
  run_statements (migration_statements schemaSql) s.

End Migration.

(** A longer run: Alice signs up and claims five times, Bob signs up with
    her code, she deploys a bot, a deployment timer fires, Bob posts a
    message and, being no admin, tries an env update. *)
Definition bob_token : string := model_sign 1 "bob@example.com".

Definition busy_week : list action :=
  (map Core (five_claims
             ++ [ signup_bob; alice_deploys; TimerFired 2;
                  Served (on_day "2026-11-07")
                         (POST_community_messages (authorization bob_token)
                                                  (Some "hello")) ])
   ++ [ PUT_admin_bots_env (authorization bob_token) (Some 2%nat)
                           (Some "{}") ])%list.

(** * Properties *)

(** ** The schema model on the schema's own data *)

(** The two rows the schema file inserts satisfy the constraints the same
    file declares, and are pairwise distinct on the unique columns. *)
Example seed_rows_pass_constraints :
  forallb users_row_ok (users seeded_db) = true
  /\ users_unique (mkUser 1 "testuser" "test@example.com" "" "TEST456"
                          None None true false 100 None)
                  (firstn 1 (users seeded_db)) = true.
Proof. split; reflexivity. Qed.

Example valid_email_examples :
  map valid_email
      ["a@b.co"; "a.b+c@d-e.f.org"; "a@b.c"; "@b.co"; "a@.co"; "a@b.co1";
       "a@b@c.co"; "a b@c.co"]
  = [true; true; false; false; false; false; false; false].
Proof. reflexivity. Qed.

Example valid_username_examples :
  map valid_username ["alice"; "bot_42"; ""; "al ice"; "al-ice"]
  = [true; true; false; false; false].
Proof. reflexivity. Qed.

Example valid_repo_url_examples :
  map valid_repo_url
      ["https://github.com/alice/echo-bot"; "http://github.com/x";
       "https://gitlab.com/x"; "github.com/x"; "https://github.com"]
  = [true; true; false; false; false].
Proof. reflexivity. Qed.

Example bearer_examples :
  map bearer [None; Some ""; Some "Bearer"; Some "Bearer "; Some "Bearer abc";
              Some "abc"; Some "Bearer abc def"]
  = [None; None; None; None; Some "abc"; None; Some "abc"].
Proof. reflexivity. Qed.

(** A [Date] object, or [null], against the string of today. *)
Example strict_eq_examples :
  map (fun v => strict_eq v (JString "2026-11-02"))
      [JString "2026-11-02"; JString "2026-11-01"; JDate "2026-11-02"; JNull]
  = [true; false; false; false].
Proof. reflexivity. Qed.

(** ** Statements: what an UPDATE of [users] can and cannot touch *)

Lemma is_distinct_from_refl (a : option string) : is_distinct_from a a = false.
Proof.
  destruct a as [x|]; simpl; [|reflexivity].
  now rewrite String.eqb_refl.
Qed.

Section StatementFacts.

Context {P : Platform}.

Lemma same_but_ledger_refl d : same_but_ledger d d.
Proof. repeat split. Qed.

Lemma same_but_ledger_trans d1 d2 d3 :
  same_but_ledger d1 d2 -> same_but_ledger d2 d3 -> same_but_ledger d1 d3.
Proof.
  unfold same_but_ledger; intros (a & b & c & e & f) (a' & b' & c' & e' & f').
  repeat split; congruence.
Qed.

Lemma insert_coin_transaction_frame t d :
  same_but_ledger d (insert_coin_transaction t d).
Proof. repeat split. Qed.

Lemma handle_daily_coin_claim_frame OLD NEW d :
  same_but_ledger d (handle_daily_coin_claim OLD NEW d).
Proof.
  unfold handle_daily_coin_claim.
  destruct (last_coin_claim NEW); [|apply same_but_ledger_refl].
  destruct (is_distinct_from _ _);
    [apply insert_coin_transaction_frame | apply same_but_ledger_refl].
Qed.

Lemma after_update_triggers_frame set hit d :
  same_but_ledger d
    (fold_left (fun acc u => handle_daily_coin_claim u (set u) acc) hit d).
Proof.
  revert d; induction hit as [|u hit IH]; intro d; simpl.
  - apply same_but_ledger_refl.
  - eapply same_but_ledger_trans; [|apply IH].
    apply handle_daily_coin_claim_frame.
Qed.

(** An UPDATE that leaves [last_coin_claim] alone fires no ledger row. *)
Lemma after_update_triggers_quiet set hit d :
  (forall u, last_coin_claim (set u) = last_coin_claim u) ->
  fold_left (fun acc u => handle_daily_coin_claim u (set u) acc) hit d = d.
Proof.
  intro Hset; revert d; induction hit as [|u hit IH]; intro d; simpl.
  - reflexivity.
  - rewrite <- (IH d) at 2. f_equal.
    unfold handle_daily_coin_claim. rewrite Hset.
    destruct (last_coin_claim u); [|reflexivity].
    now rewrite is_distinct_from_refl.
Qed.

Lemma update_users_spec cond set d rows d' :
  update_users cond set d = Some (rows, d') ->
  forallb (fun u => coins_ok (coins (set u))) (filter cond (users d)) = true
  /\ rows = map set (filter cond (users d))
  /\ users d' = map (fun u => if cond u then set u else u) (users d)
  /\ bots d' = bots d
  /\ community_messages d' = community_messages d
  /\ referrals d' = referrals d
  /\ next_uuid d' = next_uuid d.
Proof.
  unfold update_users.
  destruct (forallb _ _) eqn:Hok; [|discriminate].
  intro H; injection H as Hrows Hd.
  split; [reflexivity|]. split; [now symmetry|].
  subst d'. destruct triggers.
  - destruct (after_update_triggers_frame set (filter cond (users d))
                (with_users d (map (fun u => if cond u then set u else u)
                                   (users d))))
      as (a & b & c & e & f).
    repeat split; assumption.
  - repeat split.
Qed.

Lemma update_users_ledger cond set d rows d' :
  (forall u, last_coin_claim (set u) = last_coin_claim u) ->
  update_users cond set d = Some (rows, d') ->
  coin_transactions d' = coin_transactions d.
Proof.
  intros Hset. unfold update_users.
  destruct (forallb _ _); [|discriminate].
  intro H; injection H as _ Hd. subst d'.
  destruct triggers; [|reflexivity].
  now rewrite after_update_triggers_quiet.
Qed.

Lemma update_users_defined cond set d :
  forallb (fun u => coins_ok (coins (set u))) (filter cond (users d)) = true ->
  exists rows d', update_users cond set d = Some (rows, d').
Proof.
  intro H. unfold update_users. rewrite H. eauto.
Qed.

End StatementFacts.

(** ** The ledger against the balance *)

Section LedgerFacts.

Context {P : Platform}.


(** The AFTER INSERT trigger apart, POST /api/register writes no ledger
    row either. *)
Lemma post_register_ledger_without_triggers o name mail pw code d :
  triggers = false ->
  coin_transactions (snd (post_register o name mail pw code d))
  = coin_transactions d.
Proof.
  intro Hoff. unfold post_register.
  destruct (existsb _ _); [reflexivity|].
  destruct (insert_users _ _ _ _ _ _ _ d) as [[row d1]|] eqn:Hin;
    [|reflexivity].
  assert (Hd1 : coin_transactions d1 = coin_transactions d).
  { unfold insert_users in Hin. rewrite Hoff in Hin.
    destruct (_ && _)%bool; [|discriminate].
    now injection Hin as _ <-. }
  destruct (resolve_referrer code d) as [r|]; simpl.
  - destruct (update_users _ _ d1) as [[rows d2]|] eqn:Hup; simpl;
      [|assumption].
    apply update_users_ledger in Hup; [|reflexivity].
    destruct (mail_delivered o); simpl; congruence.
  - destruct (mail_delivered o); simpl; assumption.
Qed.

End LedgerFacts.

(** C1 fails on the code.  Alice has claimed on five days: her balance is
    50 and her five ledger rows sum to 50.  She deploys a bot: the balance
    drops to 0 and the ledger still sums to 50.  Without the triggers a
    single claim already separates the two (balance 10, empty ledger), and
    with them a referred registration does (balances 200 and 100, ledger
    rows 100 and 50). *)
Theorem ledger_misses_deployment_debit :
  let d := run (P := postgres) five_claims empty_db in
  let d' := step (P := postgres) d alice_deploys in
  (balance 0 d = Some 50 /\ ledger_sum 0 d = 50)
  /\ status (fst (handle (P := postgres) (on_day "2026-11-06")
                    (POST_bots (authorization alice_token) valid_bot) d))
     = 200%nat
  /\ (balance 0 d' = Some 0 /\ ledger_sum 0 d' = 50)
  /\ (let n := run (P := no_triggers)
                   [signup_alice; alice_claims "2026-11-02"] empty_db in
      balance 0 n = Some 10 /\ ledger_sum 0 n = 0)
  /\ (let r := run (P := postgres) [signup_alice; signup_bob] empty_db in
      balance 0 r = Some 200 /\ ledger_sum 0 r = 100
      /\ balance 1 r = Some 100 /\ ledger_sum 1 r = 50).
Proof. vm_compute. repeat split; reflexivity. Qed.

(** ** The referral program *)

(** C2 fails on the code.  Alice holds the code aliceAB12CD and 0 coins;
    Bob registers with it.  On the schema with its triggers the response
    shows 50 coins, Bob's stored balance is 100 and Alice's rose by 200:
    the route and the AFTER INSERT trigger both pay the bonus.  There is
    one referral row.  Without the triggers the balances are 50 and 100
    and no referral row exists: the route never writes [referrals]. *)
Theorem referral_bonus_paid_twice :
  let before := run (P := postgres) [signup_alice] empty_db in
  let after := run (P := postgres) [signup_alice; signup_bob] empty_db in
  let plain := run (P := no_triggers) [signup_alice; signup_bob] empty_db in
  fst (handle (P := postgres) (mkIo "XY34ZT" "p0q7tok2" "2026-11-01" true)
         (POST_register "bob" "bob@example.com" "hunter2"
                        (Some "aliceAB12CD")) before)
  = respond 200 (JsonRegistered (model_sign 1 "bob@example.com") 1 "bob"
                                "bob@example.com" 50)
  /\ balance 0 before = Some 0
  /\ balance 0 after = Some 200
  /\ balance 1 after = Some 100
  /\ referrals after = [mkReferral 0 1 true]
  /\ balance 0 plain = Some 100
  /\ balance 1 plain = Some 50
  /\ referrals plain = [].
Proof. vm_compute. repeat split; reflexivity. Qed.

(** ** The daily claim *)

Lemma find_map_preserving {A} (cond : A -> bool) (g : A -> A) (l : list A) :
  (forall x, cond (g x) = cond x) ->
  find cond (map g l) = option_map g (find cond l).
Proof.
  intro H. induction l as [|x l IH]; simpl; [reflexivity|].
  rewrite H. destruct (cond x); [reflexivity | exact IH].
Qed.

Lemma filter_map_preserving {A} (cond : A -> bool) (g : A -> A) (l : list A) :
  (forall x, cond (g x) = cond x) ->
  filter cond (map g l) = map g (filter cond l).
Proof.
  intro H. induction l as [|x l IH]; simpl; [reflexivity|].
  rewrite H. destruct (cond x); simpl; now rewrite IH.
Qed.

Section ClaimFacts.

Context {P : Platform}.

(** With the driver's own DATE parser the guard of the route compares a
    [Date] object, or [null], with a string: it never holds. *)
Lemma claim_guard_never_holds (u : user) (day : string) :
  (forall text, parse_date text = pg_default_parse_date text) ->
  strict_eq (read_last_coin_claim u) (JString day) = false.
Proof.
  intro Hdate. unfold read_last_coin_claim.
  destruct (last_coin_claim u); [rewrite Hdate|]; reflexivity.
Qed.

Lemma claim_never_refused o userId d :
  (forall text, parse_date text = pg_default_parse_date text) ->
  status (fst (claim_daily_coins o userId d)) <> 400%nat.
Proof.
  intro Hdate. unfold claim_daily_coins.
  destruct (select_user _ d) as [u|]; [|simpl; discriminate].
  rewrite claim_guard_never_holds by assumption.
  destruct (update_users _ _ d) as [[rows d1]|]; [|simpl; discriminate].
  destruct (select_user _ d1); simpl; discriminate.
Qed.

(** Were DATE columns read as text, the route would refuse exactly the
    accounts whose last claim is today's, and leave the database alone. *)
Lemma claim_refused_iff_text_dates o userId d u :
  (forall text, parse_date text = pg_text_parse_date text) ->
  select_user (by_id userId) d = Some u ->
  (claim_daily_coins o userId d
   = (respond 400 (JsonError "Already claimed coins today"), d)
   <-> last_coin_claim u = Some (today o))
  /\ (status (fst (claim_daily_coins o userId d)) = 400%nat
      <-> last_coin_claim u = Some (today o)).
Proof.
  intros Hdate Hu. unfold claim_daily_coins, read_last_coin_claim.
  rewrite Hu.
  destruct (last_coin_claim u) as [text|] eqn:Hlast.
  - rewrite Hdate. unfold pg_text_parse_date. simpl strict_eq.
    destruct (String.eqb_spec text (today o)) as [->|Hne].
    + repeat split; reflexivity.
    + assert (Hneq : Some text <> Some (today o)) by congruence.
      destruct (update_users _ _ d) as [[rows d1]|];
        [destruct (select_user _ d1)|];
        (split; split; intro H; [discriminate H | contradiction
                                | simpl in H; discriminate H | contradiction]).
  - simpl strict_eq.
    destruct (update_users _ _ d) as [[rows d1]|];
      [destruct (select_user _ d1)|];
      (split; split; intro H; simpl in H; discriminate H).
Qed.

End ClaimFacts.

(** C3 fails on the code.  Alice, fresh and with 0 coins, claims on
    2026-11-02: the balance becomes 10 and [last_coin_claim] that day.  She
    claims again the same day: the route answers 200 and the balance is 20,
    where the claim has it refuse the call.  The next-day claim is paid as
    well. *)
Theorem same_day_claim_is_paid_again :
  let d0 := run (P := postgres) [signup_alice] empty_db in
  let first := handle (P := postgres) (on_day "2026-11-02")
                 (POST_claim_daily_coins (authorization alice_token)) d0 in
  let again := handle (P := postgres) (on_day "2026-11-02")
                 (POST_claim_daily_coins (authorization alice_token))
                 (snd first) in
  let morrow := handle (P := postgres) (on_day "2026-11-03")
                  (POST_claim_daily_coins (authorization alice_token))
                  (snd first) in
  balance 0 d0 = Some 0
  /\ fst first = respond 200 (JsonCoins 10 "10 coins claimed successfully")
  /\ option_map last_coin_claim (select_user (by_id 0) (snd first))
     = Some (Some "2026-11-02")
  /\ fst again = respond 200 (JsonCoins 20 "10 coins claimed successfully")
  /\ balance 0 (snd again) = Some 20
  /\ fst morrow = respond 200 (JsonCoins 20 "10 coins claimed successfully").
Proof. vm_compute. repeat split; reflexivity. Qed.

(** ** The deployment gate *)

(** C4 fails on the code.  Alice holds exactly 50 coins and deploys a valid
    bot: the route answers 200, the balance is 0, one bot exists and it is
    pending; the ledger is what it was, with no row of type
    [bot_deployment] and no row of amount -50. *)
Theorem deployment_debit_not_recorded :
  let d := run (P := postgres) five_claims empty_db in
  let out := handle (P := postgres) (on_day "2026-11-06")
               (POST_bots (authorization alice_token) valid_bot) d in
  balance 0 d = Some 50
  /\ status (fst out) = 200%nat
  /\ balance 0 (snd out) = Some 0
  /\ map bot_status_of (bots (snd out)) = [pending]
  /\ coin_transactions (snd out) = coin_transactions d
  /\ filter (fun t => match tx_type t with
                      | bot_deployment => true
                      | _ => amount t <? 0
                      end) (coin_transactions (snd out)) = [].
Proof. vm_compute. repeat split; reflexivity. Qed.

Section GateFacts.

Context {P : Platform}.

Lemma authenticateToken_passes header token userId mail next d :
  bearer header = Some token ->
  jwt_verify token = Some (userId, mail) ->
  authenticateToken header next d = next userId d.
Proof.
  intros Hb Hv. unfold authenticateToken. now rewrite Hb, Hv.
Qed.

(** C5: an account whose balance is below 50 is refused by POST /api/bots
    with "Insufficient coins", and the database after the call is the
    database before it: the balance is unchanged and no bot row was
    created. *)
Theorem deploy_refused_below_fifty
        o header token userId mail r d u :
  bearer header = Some token ->
  jwt_verify token = Some (userId, mail) ->
  select_user (by_id userId) d = Some u ->
  coins u < 50 ->
  let out := handle o (POST_bots header r) d in
  fst out = respond 400 (JsonError "Insufficient coins")
  /\ snd out = d
  /\ balance userId (snd out) = Some (coins u)
  /\ bots (snd out) = bots d.
Proof.
  intros Hb Hv Hu Hlt. simpl.
  rewrite (authenticateToken_passes _ _ _ _ _ _ Hb Hv).
  unfold deploy_bot. rewrite Hu.
  apply Z.ltb_lt in Hlt. rewrite Hlt. simpl.
  repeat split. unfold balance. now rewrite Hu.
Qed.

End GateFacts.

Lemma deploy_refused_below_fifty_witness :
  let d := run (P := postgres) [signup_alice; alice_claims "2026-11-02"]
               empty_db in
  let out := handle (P := postgres) (on_day "2026-11-02")
               (POST_bots (authorization alice_token) valid_bot) d in
  fst out = respond 400 (JsonError "Insufficient coins")
  /\ snd out = d
  /\ balance 0 (snd out) = Some 10
  /\ bots (snd out) = bots d.
Proof.
  apply (deploy_refused_below_fifty (P := postgres) (on_day "2026-11-02")
           (authorization alice_token) alice_token 0 "alice@example.com"
           valid_bot
           (run (P := postgres) [signup_alice; alice_claims "2026-11-02"]
                empty_db)
           (mkUser 0 "alice" "alice@example.com" "$2a$12$correct horse"
                   "aliceAB12CD" None (Some "k3x9tok1") false false 10
                   (Some "2026-11-02"))).
  - reflexivity.
  - reflexivity.
  - reflexivity.
  - simpl. lia.
Defined.

(** ** Identity: verification, mail, login *)

Section IdentityFacts.

Context {P : Platform}.

(** A token that verified once verifies again: the route never clears
    [verification_token], and the UPDATE matches whether or not the row is
    verified already. *)
Lemma verify_email_again token d d1 :
  get_verify_email token d
  = (respond 200 (JsonMessage "Email verified successfully"), d1) ->
  fst (get_verify_email token d1)
  = respond 200 (JsonMessage "Email verified successfully").
Proof.
  unfold get_verify_email.
  destruct (update_users _ _ d) as [[rows d']|] eqn:Hup; [|discriminate].
  destruct rows as [|row rows]; [discriminate|].
  intro H; injection H as ->.
  apply update_users_spec in Hup.
  destruct Hup as (Hok & Hrows & Husers & _).
  set (cond := by_verification_token token) in *.
  set (g := fun u : user => if cond u then set_is_verified u true else u).
  assert (Hcond : forall u, cond (g u) = cond u).
  { intro u. unfold g. destruct (cond u) eqn:E; [|exact E].
    unfold cond, by_verification_token in *. simpl. exact E. }
  assert (Hhit : filter cond (users d1) = map g (filter cond (users d))).
  { rewrite Husers. now apply filter_map_preserving. }
  unfold update_users. rewrite Hhit.
  replace (forallb _ (map g (filter cond (users d)))) with true.
  - destruct (filter cond (users d)); [discriminate Hrows|]. reflexivity.
  - symmetry. rewrite forallb_forall in *. intros x Hx.
    apply in_map_iff in Hx. destruct Hx as (u & <- & Hu).
    specialize (Hok u Hu). unfold g. destruct (cond u); exact Hok.
Qed.

(** When the mail transport rejects the message, POST /api/register never
    answers 200. *)
Lemma mail_failure_never_succeeds o name mail pw code d :
  mail_delivered o = false ->
  status (fst (post_register o name mail pw code d)) <> 200%nat.
Proof.
  intro Hmail. unfold post_register.
  destruct (existsb _ _); [simpl; discriminate|].
  destruct (insert_users _ _ _ _ _ _ _ d) as [[row d1]|];
    [|simpl; discriminate].
  destruct (match resolve_referrer code d with
            | Some r => _
            | None => _
            end); [|simpl; discriminate].
  rewrite Hmail. simpl. discriminate.
Qed.

(** C9: a login against an existing account that is not verified is
    refused with "Please verify your email first" whatever the password and
    whatever bcrypt would say of it; a login with an email no account has
    is refused with "Invalid credentials".  Neither touches the database. *)
Theorem login_verification_gate mail pw d :
  (forall u, select_user (by_email mail) d = Some u ->
             is_verified u = false ->
             post_login mail pw d
             = (respond 400 (JsonError "Please verify your email first"), d))
  /\ (select_user (by_email mail) d = None ->
      post_login mail pw d
      = (respond 400 (JsonError "Invalid credentials"), d)).
Proof.
  split.
  - intros u Hu Hv. unfold post_login. now rewrite Hu, Hv.
  - intro Hnone. unfold post_login. now rewrite Hnone.
Qed.

End IdentityFacts.

Lemma login_verification_gate_witness :
  let d := run (P := postgres) [signup_alice] empty_db in
  let refused :=
    (respond 400 (JsonError "Please verify your email first"), d) in
  post_login (P := postgres) "alice@example.com" "correct horse" d = refused
  /\ post_login (P := postgres) "alice@example.com" "a wrong one" d = refused
  /\ post_login (P := postgres) "nobody@example.com" "correct horse" d
     = (respond 400 (JsonError "Invalid credentials"), d).
Proof.
  split; [|split].
  - apply (proj1 (login_verification_gate (P := postgres)
                    "alice@example.com" "correct horse"
                    (run (P := postgres) [signup_alice] empty_db))
                 (mkUser 0 "alice" "alice@example.com" "$2a$12$correct horse"
                         "aliceAB12CD" None (Some "k3x9tok1") false false 0
                         None)); reflexivity.
  - apply (proj1 (login_verification_gate (P := postgres)
                    "alice@example.com" "a wrong one"
                    (run (P := postgres) [signup_alice] empty_db))
                 (mkUser 0 "alice" "alice@example.com" "$2a$12$correct horse"
                         "aliceAB12CD" None (Some "k3x9tok1") false false 0
                         None)); reflexivity.
  - apply (proj2 (login_verification_gate (P := postgres)
                    "nobody@example.com" "correct horse"
                    (run (P := postgres) [signup_alice] empty_db)));
      reflexivity.
Defined.

(** C7 fails on the code.  Alice registers and receives the token k3x9tok1.
    GET /api/verify-email with it answers 200 and verifies her; the same
    call once more answers 200 again, where the claim has it fail with an
    invalid-token error.  A token no account holds is refused. *)
Theorem verification_token_reusable :
  let d0 := run (P := postgres) [signup_alice] empty_db in
  let first := get_verify_email (P := postgres) (Some "k3x9tok1") d0 in
  let second := get_verify_email (P := postgres) (Some "k3x9tok1")
                                 (snd first) in
  fst first = respond 200 (JsonMessage "Email verified successfully")
  /\ option_map is_verified (select_user (by_id 0) (snd first)) = Some true
  /\ fst second = respond 200 (JsonMessage "Email verified successfully")
  /\ fst (get_verify_email (P := postgres) (Some "someone-else") (snd first))
     = respond 400 (JsonError "Invalid verification token").
Proof. vm_compute. repeat split; reflexivity. Qed.

(** C8 fails on the code.  Alice's registration passes every identity
    check and her row is inserted; the mail transport then rejects the
    verification mail.  The route answers 500 "Registration failed" and
    hands out no token, while the account stays in the database: a retry
    is refused with "User already exists". *)
Theorem mail_failure_fails_registration :
  let o := mkIo "AB12CD" "k3x9tok1" "2026-11-01" false in
  let out := post_register (P := postgres) o "alice" "alice@example.com"
                           "correct horse" None empty_db in
  fst out = respond 500 (JsonError "Registration failed")
  /\ option_map username (select_user (by_email "alice@example.com") (snd out))
     = Some "alice"
  /\ fst (post_register (P := postgres) o "alice" "alice@example.com"
                        "correct horse" None (snd out))
     = respond 400 (JsonError "User already exists")
  /\ status (fst (post_register (P := postgres)
                    (mkIo "AB12CD" "k3x9tok1" "2026-11-01" true)
                    "alice" "alice@example.com" "correct horse" None
                    empty_db))
     = 200%nat.
Proof. vm_compute. repeat split; reflexivity. Qed.

(** ** The balance never goes below zero *)

Lemma users_evolve_refl us : users_evolve us us.
Proof.
  exists (fun u => u), []. rewrite map_id, app_nil_r.
  repeat split; auto.
Qed.

Lemma users_evolve_trans us1 us2 us3 :
  users_evolve us1 us2 -> users_evolve us2 us3 -> users_evolve us1 us3.
Proof.
  intros (g1 & e1 & -> & H1 & F1) (g2 & e2 & -> & H2 & F2).
  exists (fun u => g2 (g1 u)), (map g2 e1 ++ e2)%list.
  rewrite map_app, map_map, app_assoc. split; [reflexivity|]. split.
  - intros u Hu. destruct (H1 u Hu) as [Hid Hc].
    assert (Hin : In (g1 u) (map g1 us1 ++ e1)%list)
      by (apply in_or_app; left; now apply in_map).
    destruct (H2 _ Hin) as [Hid2 Hc2]. split; [congruence | auto].
  - apply Forall_app; split; [|assumption].
    rewrite Forall_forall in *. intros x Hx.
    apply in_map_iff in Hx. destruct Hx as (u & <- & Hu).
    apply H2; [apply in_or_app; now right | now apply F1].
Qed.

Lemma users_evolve_append us u :
  0 <= coins u -> users_evolve us (us ++ [u])%list.
Proof.
  intro Hu. exists (fun x => x), [u]. rewrite map_id.
  repeat split; auto.
Qed.

Lemma users_evolve_nonneg us us' :
  users_evolve us us' ->
  Forall (fun u => 0 <= coins u) us -> Forall (fun u => 0 <= coins u) us'.
Proof.
  intros (g & extra & -> & Hg & Hextra) Hall.
  apply Forall_app; split; [|assumption].
  rewrite Forall_forall in *. intros x Hx.
  apply in_map_iff in Hx. destruct Hx as (u & <- & Hu).
  apply Hg; auto.
Qed.

Lemma users_evolve_find us us' i u :
  users_evolve us us' ->
  find (by_id i) us = Some u ->
  exists u', find (by_id i) us' = Some u' /\ (0 <= coins u -> 0 <= coins u').
Proof.
  intros (g & extra & -> & Hg & _) Hfind.
  exists (g u). split.
  - clear -Hfind Hg. induction us as [|x us IH]; [discriminate|].
    simpl in *. unfold by_id at 1.
    destruct (Hg x (or_introl eq_refl)) as [-> _].
    fold (by_id i x). destruct (by_id i x).
    + now injection Hfind as ->.
    + apply IH; [|assumption]. intros v Hv. apply Hg. now right.
  - apply Hg. eapply find_some, Hfind.
Qed.

Lemma coins_ok_nonneg c : coins_ok c = true -> 0 <= c.
Proof.
  unfold coins_ok. intro H. apply andb_true_iff in H.
  destruct H as [_ H]. now apply Z.leb_le.
Qed.

Section BalanceFacts.

Context {P : Platform}.

Lemma update_users_evolve cond set d rows d' :
  (forall u, id (set u) = id u) ->
  update_users cond set d = Some (rows, d') ->
  users_evolve (users d) (users d').
Proof.
  intros Hid Hup. apply update_users_spec in Hup.
  destruct Hup as (Hok & _ & Husers & _).
  exists (fun u => if cond u then set u else u), [].
  rewrite app_nil_r. split; [assumption|]. split; [|constructor].
  intros u Hu. destruct (cond u) eqn:Hc; [|auto]. split; [apply Hid|].
  intros _. apply coins_ok_nonneg.
  rewrite forallb_forall in Hok. apply Hok.
  apply filter_In. auto.
Qed.

Lemma handle_referral_bonus_evolve NEW d d' :
  handle_referral_bonus NEW d = Some d' ->
  users_evolve (users d) (users d').
Proof.
  unfold handle_referral_bonus.
  destruct (referrer_id NEW) as [r|].
  - destruct (update_users _ _ d) as [[rows1 d1]|] eqn:H1; [|discriminate].
    unfold insert_referrals. destruct (existsb _ _); [discriminate|].
    destruct (update_users (by_id (id NEW)) _ _) as [[rows4 d4]|] eqn:H4;
      [|discriminate].
    intro H; injection H as <-. simpl.
    apply update_users_evolve in H1; [|reflexivity].
    apply update_users_evolve in H4; [|reflexivity].
    simpl in H4. eapply users_evolve_trans; eassumption.
  - intro H; injection H as <-. apply users_evolve_refl.
Qed.

Lemma insert_users_evolve name mail pw code referrer token c d row d' :
  insert_users name mail pw code referrer token c d = Some (row, d') ->
  users_evolve (users d) (users d').
Proof.
  unfold insert_users.
  destruct (_ && _)%bool eqn:Hok; [|discriminate].
  assert (Hc : 0 <= c).
  { repeat (apply andb_true_iff in Hok; destruct Hok as [Hok ?]).
    unfold users_row_ok in Hok; simpl in Hok.
    repeat (apply andb_true_iff in Hok; destruct Hok as [Hok ?]).
    now apply coins_ok_nonneg. }
  set (NEW := mkUser _ _ _ _ _ _ _ _ _ _ _).
  assert (Happ : users_evolve (users d) (users d ++ [NEW])%list)
    by now apply users_evolve_append.
  destruct triggers.
  - destruct (handle_referral_bonus NEW _) as [d2|] eqn:Htrig; [|discriminate].
    intro H; injection H as _ <-.
    apply handle_referral_bonus_evolve in Htrig. simpl in Htrig.
    eapply users_evolve_trans; eassumption.
  - intro H; injection H as _ <-. exact Happ.
Qed.

Lemma post_register_evolve o name mail pw code d :
  users_evolve (users d) (users (snd (post_register o name mail pw code d))).
Proof.
  unfold post_register.
  destruct (existsb _ _); [apply users_evolve_refl|].
  destruct (insert_users _ _ _ _ _ _ _ d) as [[row d1]|] eqn:Hin;
    [|apply users_evolve_refl].
  apply insert_users_evolve in Hin.
  destruct (resolve_referrer code d) as [r|]; simpl.
  - destruct (update_users _ _ d1) as [[rows d2]|] eqn:Hup; simpl;
      [|assumption].
    apply update_users_evolve in Hup; [|reflexivity].
    assert (users_evolve (users d) (users d2))
      by (eapply users_evolve_trans; eassumption).
    destruct (mail_delivered o); assumption.
  - destruct (mail_delivered o); assumption.
Qed.

Lemma get_verify_email_evolve token d :
  users_evolve (users d) (users (snd (get_verify_email token d))).
Proof.
  unfold get_verify_email.
  destruct (update_users _ _ d) as [[rows d1]|] eqn:Hup;
    [|apply users_evolve_refl].
  apply update_users_evolve in Hup; [|reflexivity].
  destruct rows; assumption.
Qed.

Lemma claim_daily_coins_evolve o userId d :
  users_evolve (users d) (users (snd (claim_daily_coins o userId d))).
Proof.
  unfold claim_daily_coins.
  destruct (select_user _ d); [|apply users_evolve_refl].
  destruct (strict_eq _ _); [apply users_evolve_refl|].
  destruct (update_users _ _ d) as [[rows d1]|] eqn:Hup;
    [|apply users_evolve_refl].
  apply update_users_evolve in Hup; [|reflexivity].
  destruct (select_user _ d1); assumption.
Qed.

Lemma insert_bots_users userId r d b d' :
  insert_bots userId r d = Some (b, d') -> users d' = users d.
Proof.
  unfold insert_bots. destruct (botName r), (repoUrl r); try discriminate.
  destruct (_ && _)%bool; [|discriminate].
  now intro H; injection H as _ <-.
Qed.

Lemma deploy_bot_evolve userId r d :
  users_evolve (users d) (users (snd (deploy_bot userId r d))).
Proof.
  unfold deploy_bot.
  destruct (select_user _ d) as [u|]; [|apply users_evolve_refl].
  destruct (coins u <? 50); [apply users_evolve_refl|].
  destruct (update_users _ _ d) as [[rows d1]|] eqn:Hup;
    [|apply users_evolve_refl].
  apply update_users_evolve in Hup; [|reflexivity].
  destruct (insert_bots userId r d1) as [[b d2]|] eqn:Hb; simpl;
    [|assumption].
  apply insert_bots_users in Hb. now rewrite Hb.
Qed.

Lemma send_community_message_users userId m d :
  users (snd (send_community_message userId m d)) = users d.
Proof.
  unfold send_community_message, insert_community_messages.
  destruct m as [text|]; [|reflexivity].
  destruct (_ && _)%bool; [|reflexivity].
  simpl. destruct (select_user _ _); reflexivity.
Qed.

Lemma authenticateToken_evolve header next d :
  (forall userId, users_evolve (users d) (users (snd (next userId d)))) ->
  users_evolve (users d) (users (snd (authenticateToken header next d))).
Proof.
  intro Hnext. unfold authenticateToken.
  destruct (bearer header) as [token|]; [|apply users_evolve_refl].
  destruct (jwt_verify token) as [[userId mail]|];
    [apply Hnext | apply users_evolve_refl].
Qed.

Lemma handle_evolve o r d :
  users_evolve (users d) (users (snd (handle o r d))).
Proof.
  destruct r; simpl.
  - apply post_register_evolve.
  - unfold post_login. destruct (select_user _ d) as [u|];
      [|apply users_evolve_refl].
    destruct (negb (is_verified u)); [apply users_evolve_refl|].
    destruct (negb (bcrypt_compare _ _)); apply users_evolve_refl.
  - apply get_verify_email_evolve.
  - apply authenticateToken_evolve. intro. apply claim_daily_coins_evolve.
  - apply authenticateToken_evolve. intro. apply deploy_bot_evolve.
  - apply authenticateToken_evolve. intro.
    rewrite send_community_message_users. apply users_evolve_refl.
Qed.

Lemma step_evolve d e : users_evolve (users d) (users (step d e)).
Proof.
  destruct e; simpl; [apply handle_evolve | apply users_evolve_refl].
Qed.

Lemma run_evolve es d : users_evolve (users d) (users (run es d)).
Proof.
  unfold run. revert d. induction es as [|e es IH]; intro d; simpl.
  - apply users_evolve_refl.
  - eapply users_evolve_trans; [apply step_evolve | apply IH].
Qed.

(** C6: whatever the server does next (a request of any kind, answered
    with success or with an error, or a deployment timer), an account
    whose balance is a non-negative integer before still exists after, and
    its balance is a non-negative integer. *)
Theorem coins_stay_nonnegative (e : event) (d : db) (i : uuid) (c : Z) :
  balance i d = Some c ->
  0 <= c ->
  exists c', balance i (step d e) = Some c' /\ 0 <= c'.
Proof.
  unfold balance, select_user. intros Hb Hc.
  destruct (find (by_id i) (users d)) as [u|] eqn:Hfind; [|discriminate].
  injection Hb as <-.
  destruct (users_evolve_find _ _ i u (step_evolve d e) Hfind)
    as (u' & Hfind' & Hc').
  exists (coins u'). rewrite Hfind'. auto.
Qed.

(** The same over whole runs and the whole table. *)
Lemma coins_nonneg_run (es : list event) (d : db) :
  coins_nonneg d -> coins_nonneg (run es d).
Proof.
  unfold coins_nonneg. apply users_evolve_nonneg, run_evolve.
Qed.

End BalanceFacts.

Lemma coins_stay_nonnegative_witness :
  exists c', balance 0 (step (P := postgres)
                          (run (P := postgres) five_claims empty_db)
                          alice_deploys) = Some c'
             /\ 0 <= c'.
Proof.
  apply (coins_stay_nonnegative (P := postgres) alice_deploys
           (run (P := postgres) five_claims empty_db) 0 50).
  - reflexivity.
  - lia.
Defined.

(** ** Sessions: the token of a registration *)

Lemma split_blank_free (s : string) :
  blank_free s = true -> split " " s = [s].
Proof.
  unfold blank_free, chars. induction s as [|c s IH]; simpl; [reflexivity|].
  destruct (Ascii.eqb c " "); simpl; [discriminate|].
  intro H. now rewrite IH.
Qed.

Lemma bearer_authorization (token : string) :
  token <> "" -> blank_free token = true ->
  bearer (authorization token) = Some token.
Proof.
  intros Hne Hfree. unfold bearer, authorization.
  change ("Bearer " ++ token)
    with (String "B" (String "e" (String "a" (String "r" (String "e"
           (String "r" (String " " token))))))).
  cbn. rewrite (split_blank_free token Hfree). cbn.
  destruct (String.eqb_spec token ""); [contradiction | reflexivity].
Qed.

Lemma read_unary_unary (n : nat) (rest : string) :
  read_unary (unary n ++ String "." rest) = Some (n, rest).
Proof.
  induction n as [|n IH]; simpl; [reflexivity|]. now rewrite IH.
Qed.

Lemma unescape_escape (s : string) : unescape (escape s) = s.
Proof.
  induction s as [|c s IH]; simpl; [reflexivity|].
  destruct (Ascii.eqb_spec c " ") as [->|Hblank]; simpl.
  - now rewrite IH.
  - destruct (Ascii.eqb_spec c "_") as [->|Hbar]; simpl.
    + now rewrite IH.
    + destruct (Ascii.eqb_spec c "_"); [contradiction|]. now rewrite IH.
Qed.

Lemma existsb_chars_app (p : ascii -> bool) (s t : string) :
  existsb p (chars (s ++ t)) = (existsb p (chars s) || existsb p (chars t))%bool.
Proof.
  unfold chars. induction s as [|c s IH]; simpl; [reflexivity|].
  now rewrite IH, orb_assoc.
Qed.

Lemma unary_blank_free (n : nat) :
  existsb (fun c => Ascii.eqb c " ") (chars (unary n)) = false.
Proof. induction n; simpl; auto. Qed.

Lemma escape_blank_free (s : string) :
  existsb (fun c => Ascii.eqb c " ") (chars (escape s)) = false.
Proof.
  unfold chars. induction s as [|c s IH]; simpl; [reflexivity|].
  destruct (Ascii.eqb_spec c " ") as [->|Hblank]; simpl; [exact IH|].
  destruct (Ascii.eqb_spec c "_") as [->|Hbar]; simpl; [exact IH|].
  rewrite IH, orb_false_r.
  destruct (Ascii.eqb_spec c " "); [contradiction | reflexivity].
Qed.

#[export] Instance model_jwt_laws (dates : string -> js_value) (trig : bool) :
  JwtLaws (model_platform dates trig).
Proof.
  split; intros userId mail; simpl; unfold model_sign.
  - simpl. now rewrite read_unary_unary, unescape_escape.
  - split; [discriminate|].
    unfold blank_free. change (chars (String "J" ?s)) with ("J"%char :: chars s).
    simpl. rewrite existsb_chars_app, unary_blank_free.
    change (chars (String "." ?s)) with ("."%char :: chars s).
    simpl. now rewrite escape_blank_free.
Qed.

(** ** What a registration leaves in the database *)

Lemma credit_absent i n us : has_user i us = false -> credit i n us = us.
Proof.
  unfold credit, has_user, by_id. induction us as [|u us IH]; simpl;
    [reflexivity|].
  intro H. apply orb_false_iff in H. destruct H as [Hu Hus].
  now rewrite Hu, IH.
Qed.

Lemma has_user_credit i r n us : has_user i (credit r n us) = has_user i us.
Proof.
  unfold credit, has_user. induction us as [|u us IH]; simpl; [reflexivity|].
  rewrite IH. now destruct (by_id r u).
Qed.

Lemma credit_credit r a b us :
  credit r a (credit r b us) = credit r (b + a) us.
Proof.
  unfold credit. rewrite map_map. apply map_ext. intro u.
  destruct (by_id r u) eqn:Hr.
  - unfold by_id in *. simpl. rewrite Hr.
    unfold add_coins, set_coins. simpl. now rewrite Z.add_assoc.
  - now rewrite Hr.
Qed.

Lemma find_absent i us : has_user i us = false -> find (by_id i) us = None.
Proof.
  unfold has_user, by_id. induction us as [|u us IH]; simpl; [reflexivity|].
  intro H. apply orb_false_iff in H. destruct H as [Hu Hus].
  now rewrite Hu, IH.
Qed.

Lemma filter_absent i us : has_user i us = false -> filter (by_id i) us = [].
Proof.
  unfold has_user, by_id. induction us as [|u us IH]; simpl; [reflexivity|].
  intro H. apply orb_false_iff in H. destruct H as [Hu Hus].
  now rewrite Hu, IH.
Qed.

Lemma find_present i us u :
  find (by_id i) us = Some u -> has_user i us = true /\ id u = i.
Proof.
  intro H. pose proof (find_some _ _ H) as [Hin Hid]. split.
  - unfold has_user. apply existsb_exists. exists u. auto.
  - unfold by_id in Hid. now apply Nat.eqb_eq.
Qed.

Lemma find_app_l {A} (p : A -> bool) (l l' : list A) (x : A) :
  find p l = Some x -> find p (l ++ l') = Some x.
Proof.
  induction l as [|y l IH]; simpl; [discriminate|].
  destruct (p y); auto.
Qed.

Lemma find_app_r {A} (p : A -> bool) (l l' : list A) :
  find p l = None -> find p (l ++ l') = find p l'.
Proof.
  induction l as [|y l IH]; simpl; [reflexivity|].
  destruct (p y); [discriminate | auto].
Qed.

Lemma find_credit i r n us :
  find (by_id i) (credit r n us)
  = option_map (fun u => if by_id r u then add_coins n u else u)
               (find (by_id i) us).
Proof.
  apply find_map_preserving. intro u. now destruct (by_id r u).
Qed.

Lemma credit_snoc_other r n us x :
  by_id r x = false -> credit r n (us ++ [x]) = (credit r n us ++ [x])%list.
Proof.
  intro H. unfold credit. rewrite map_app. cbn [map]. now rewrite H.
Qed.

Lemma credit_snoc_self i n us x :
  has_user i us = false -> by_id i x = true ->
  credit i n (us ++ [x]) = (us ++ [add_coins n x])%list.
Proof.
  intros Hus Hx. unfold credit. rewrite map_app. cbn [map]. rewrite Hx.
  fold (credit i n us). now rewrite credit_absent.
Qed.

Section RegistrationFacts.

Context {P : Platform}.

Lemma handle_referral_bonus_spec NEW r d d' :
  referrer_id NEW = Some r ->
  handle_referral_bonus NEW d = Some d' ->
  users d' = credit (id NEW) 50 (credit r 100 (users d))
  /\ referrals d' = (referrals d ++ [mkReferral r (id NEW) true])%list
  /\ coin_transactions d'
     = (coin_transactions d
        ++ [ mkTx r 100 referral_bonus
                  ("Referral bonus for new user: " ++ username NEW) None;
             mkTx (id NEW) 50 referral_bonus
                  "Welcome bonus from referral" None ])%list
  /\ bots d' = bots d
  /\ community_messages d' = community_messages d
  /\ next_uuid d' = next_uuid d.
Proof.
  intros Hr. unfold handle_referral_bonus. rewrite Hr.
  destruct (update_users (by_id r) _ d) as [[rows1 d1]|] eqn:H1;
    [|discriminate].
  unfold insert_referrals. destruct (existsb _ _); [discriminate|].
  destruct (update_users (by_id (id NEW)) _ _) as [[rows4 d4]|] eqn:H4;
    [|discriminate].
  intro H; injection H as <-.
  pose proof (update_users_ledger _ (add_coins 100) _ _ _
                (fun _ => eq_refl) H1) as L1.
  pose proof (update_users_ledger _ (add_coins 50) _ _ _
                (fun _ => eq_refl) H4) as L4.
  apply update_users_spec in H1. apply update_users_spec in H4.
  destruct H1 as (_ & _ & U1 & B1 & M1 & R1 & N1).
  destruct H4 as (_ & _ & U4 & B4 & M4 & R4 & N4).
  cbn [users bots community_messages referrals next_uuid coin_transactions
       insert_coin_transaction] in *.
  rewrite U4, U1, B4, B1, M4, M1, R4, R1, N4, N1, L4, L1.
  rewrite <- app_assoc. repeat split.
Qed.

Lemma resolve_referrer_present code d r :
  resolve_referrer code d = Some r -> has_user r (users d) = true.
Proof.
  unfold resolve_referrer. destruct code as [c|]; [|discriminate].
  destruct (String.eqb c ""); [discriminate|].
  unfold select_user. destruct (find _ (users d)) as [u|] eqn:Hfind;
    [|discriminate].
  simpl. intro H; injection H as <-.
  apply find_some in Hfind. destruct Hfind as [Hin _].
  unfold has_user. apply existsb_exists. exists u. split; [assumption|].
  apply Nat.eqb_refl.
Qed.

(** A registration that answers 200, in full: the response, the [users]
    table and the [referrals] table after it. *)
Lemma post_register_success o name mail pw code d res d' :
  post_register o name mail pw code d = (res, d') ->
  status res = 200%nat ->
  has_user (next_uuid d) (users d) = false
  /\ existsb (fun u => String.eqb (email u) mail
                       || String.eqb (username u) name)%bool (users d) = false
  /\ bots d' = bots d
  /\ community_messages d' = community_messages d
  /\ match resolve_referrer code d with
     | None =>
         res = respond 200 (JsonRegistered (jwt_sign (next_uuid d) mail)
                              (next_uuid d) name mail 0)
         /\ users d' = (users d ++ [registered o name mail pw code d 0])%list
         /\ referrals d' = referrals d
     | Some r =>
         res = respond 200 (JsonRegistered (jwt_sign (next_uuid d) mail)
                              (next_uuid d) name mail 50)
         /\ has_user r (users d) = true
         /\ if triggers
            then users d'
                 = (credit r 200 (users d)
                    ++ [registered o name mail pw code d 100])%list
                 /\ referrals d'
                    = (referrals d ++ [mkReferral r (next_uuid d) true])%list
            else users d'
                 = (credit r 100 (users d)
                    ++ [registered o name mail pw code d 50])%list
                 /\ referrals d' = referrals d
     end.
Proof.
  unfold post_register.
  destruct (existsb _ (users d)) eqn:Hfree;
    [intro H; injection H as <- _; discriminate|].
  unfold insert_users.
  set (c0 := match resolve_referrer code d with Some _ => 50 | None => 0 end).
  set (NEW := mkUser (next_uuid d) name mail (bcrypt_hash pw)
                     (name ++ random_suffix o) (resolve_referrer code d)
                     (Some (random_token o)) false false c0 None).
  destruct (_ && _)%bool eqn:Hok;
    [|intro H; injection H as <- _; discriminate].
  apply andb_true_iff in Hok. destruct Hok as [Hok Hfk].
  apply andb_true_iff in Hok. destruct Hok as [Hok Hpk].
  apply negb_true_iff in Hpk. cbn [id NEW] in Hpk.
  destruct (resolve_referrer code d) as [r|] eqn:Href.
  - (* a referrer was found *)
    pose proof (resolve_referrer_present _ _ _ Href) as Hr.
    assert (Hne : by_id r NEW = false).
    { unfold by_id, NEW. cbn [id]. apply Nat.eqb_neq. intro E.
      rewrite E in Hpk. congruence. }
    assert (Hself : by_id (next_uuid d) NEW = true)
      by (unfold by_id; apply Nat.eqb_refl).
    destruct triggers eqn:Htrig.
    + destruct (handle_referral_bonus NEW _) as [d2|] eqn:Hbonus;
        [|intro H; injection H as <- _; discriminate].
      apply handle_referral_bonus_spec with (r := r) in Hbonus;
        [|reflexivity].
      cbn [users bots community_messages referrals next_uuid id NEW]
        in Hbonus.
      destruct Hbonus as (U2 & R2 & _ & B2 & M2 & N2).
      cbn [option_map].
      destruct (update_users (by_id r) _ d2) as [[rows d3]|] eqn:Hup;
        [|intro H; injection H as <- _; discriminate].
      apply update_users_spec in Hup.
      destruct Hup as (_ & _ & U3 & B3 & M3 & R3 & _).
      cbn [snd]. destruct (mail_delivered o);
        [|intro H; injection H as <- _; discriminate].
      intro H; injection H as <- <-. intros _.
      repeat split; try congruence.
      rewrite U3. change (map _ (users d2)) with (credit r 100 (users d2)).
      rewrite U2, (credit_snoc_other r) by exact Hne.
      rewrite (credit_snoc_self (next_uuid d))
        by (rewrite ?has_user_credit; assumption).
      rewrite (credit_snoc_other r) by exact Hne.
      rewrite credit_credit. unfold registered. now rewrite Href.
    + cbn [option_map].
      destruct (update_users (by_id r) _ _) as [[rows d3]|] eqn:Hup;
        [|intro H; injection H as <- _; discriminate].
      apply update_users_spec in Hup.
      cbn [users bots community_messages referrals next_uuid] in Hup.
      destruct Hup as (_ & _ & U3 & B3 & M3 & R3 & _).
      cbn [snd]. destruct (mail_delivered o);
        [|intro H; injection H as <- _; discriminate].
      intro H; injection H as <- <-. intros _.
      repeat split; try congruence.
      rewrite U3. change (map _ (users d ++ [NEW])%list)
        with (credit r 100 (users d ++ [NEW])).
      rewrite (credit_snoc_other r) by exact Hne.
      unfold registered. now rewrite Href.
  - (* no referrer *)
    assert (Hd1 : (if triggers
                   then match handle_referral_bonus NEW
                                (mkDb (users d ++ [NEW]) (bots d)
                                      (community_messages d)
                                      (coin_transactions d) (referrals d)
                                      (S (next_uuid d))) with
                        | Some d2 => Some (NEW, d2)
                        | None => None
                        end
                   else Some (NEW, mkDb (users d ++ [NEW]) (bots d)
                                        (community_messages d)
                                        (coin_transactions d) (referrals d)
                                        (S (next_uuid d))))
                  = Some (NEW, mkDb (users d ++ [NEW]) (bots d)
                                    (community_messages d)
                                    (coin_transactions d) (referrals d)
                                    (S (next_uuid d)))).
    { destruct triggers; reflexivity. }
    rewrite Hd1. destruct (mail_delivered o);
      [|intro H; injection H as <- _; discriminate].
    intro H; injection H as <- <-. intros _.
    unfold registered. rewrite Href. repeat split; assumption.
Qed.

End RegistrationFacts.

Section SessionFacts.

Context {P : Platform}.

Lemma filter_snoc_only i us x :
  has_user i us = false -> by_id i x = true ->
  filter (by_id i) (us ++ [x]) = [x].
Proof.
  intros Hus Hx. rewrite filter_app, filter_absent by assumption.
  simpl. now rewrite Hx.
Qed.

Lemma find_snoc_only (p : user -> bool) us x :
  find p us = None -> p x = true -> find p (us ++ [x]) = Some x.
Proof.
  intros Hus Hx. rewrite find_app_r by assumption. simpl. now rewrite Hx.
Qed.

Lemma email_free mail name us :
  existsb (fun u => String.eqb (email u) mail
                    || String.eqb (username u) name)%bool us = false ->
  find (by_email mail) us = None.
Proof.
  unfold by_email. induction us as [|u us IH]; simpl; [reflexivity|].
  intro H. apply orb_false_iff in H. destruct H as [Hu Hus].
  apply orb_false_iff in Hu. destruct Hu as [-> _]. auto.
Qed.

(** The common shape of the [users] table after a registration that
    answered 200: the earlier rows, none of which has the new key or the new
    email, then the new row, unverified, with 0, 50 or 100 coins. *)
Lemma post_register_new_row o name mail pw code d res d' :
  post_register o name mail pw code d = (res, d') ->
  status res = 200%nat ->
  exists (earlier : list user) (c shown : Z),
    users d' = (earlier ++ [registered o name mail pw code d c])%list
    /\ has_user (next_uuid d) earlier = false
    /\ find (by_email mail) earlier = None
    /\ (c = 0 \/ c = 50 \/ c = 100)
    /\ res = respond 200 (JsonRegistered (jwt_sign (next_uuid d) mail)
                            (next_uuid d) name mail shown).
Proof.
  intros Hreg Hok.
  destruct (post_register_success _ _ _ _ _ _ _ _ Hreg Hok)
    as (Hpk & Hfree & _ & _ & Hcase).
  apply email_free in Hfree.
  assert (Hcredit : forall r n, find (by_email mail) (credit r n (users d))
                                = None).
  { intros r n. unfold credit. rewrite find_map_preserving, Hfree;
      [reflexivity|]. intro u. now destruct (by_id r u). }
  destruct (resolve_referrer code d) as [r|].
  - destruct Hcase as (-> & _ & Hrows). destruct triggers.
    + destruct Hrows as [-> _].
      exists (credit r 200 (users d)), 100, 50.
      rewrite has_user_credit. repeat split; auto.
    + destruct Hrows as [-> _].
      exists (credit r 100 (users d)), 50, 50.
      rewrite has_user_credit. repeat split; auto.
  - destruct Hcase as (-> & -> & _).
    exists (users d), 0, 0. repeat split; auto.
Qed.

End SessionFacts.

Section DeployFacts.

Context {P : Platform}.

Lemma find_of_filter (p : user -> bool) us u rest :
  filter p us = u :: rest -> find p us = Some u.
Proof.
  induction us as [|x us IH]; simpl; [discriminate|].
  destruct (p x); [now intro H; injection H as -> _ | exact IH].
Qed.



(** What POST /api/claim-daily-coins does when its guard lets the call
    through: 10 coins are added, [last_coin_claim] becomes today, and the
    trigger, if installed, records the claim only when the day changed. *)
Lemma claim_daily_coins_pays o userId d u :
  filter (by_id userId) (users d) = [u] ->
  strict_eq (read_last_coin_claim u) (JString (today o)) = false ->
  0 <= coins u -> coins u + 10 <= 2147483647 ->
  exists d',
    claim_daily_coins o userId d
    = (respond 200 (JsonCoins (coins u + 10) "10 coins claimed successfully"),
       d')
    /\ select_user (by_id userId) d' = Some (claim (today o) u)
    /\ coin_transactions d'
       = (coin_transactions d
          ++ if (triggers
                 && is_distinct_from (last_coin_claim u) (Some (today o)))%bool
             then [mkTx userId 10 daily_claim "Daily coin claim" None]
             else [])%list.
Proof.
  intros Hone Hguard Hlo Hhi.
  pose proof (find_of_filter _ _ _ _ Hone) as Hfind.
  destruct (find_present _ _ _ Hfind) as [_ Hid].
  unfold claim_daily_coins, select_user. rewrite Hfind, Hguard.
  unfold update_users. rewrite Hone. cbn [forallb map fold_left].
  replace (coins_ok (coins (claim (today o) u))) with true.
  2:{ symmetry. unfold coins_ok, int4. cbn [claim add_coins set_coins
        set_last_coin_claim coins].
      rewrite !andb_true_iff, !Z.leb_le. lia. }
  cbn [andb].
  set (g := fun x : user => if by_id userId x then claim (today o) x else x).
  assert (Hafter : find (by_id userId) (map g (users d))
                   = Some (claim (today o) u)).
  { rewrite find_map_preserving, Hfind.
    - simpl. unfold g. now rewrite (proj2 (find_some _ _ Hfind)).
    - intro x. unfold g. now destruct (by_id userId x) eqn:E. }
  unfold handle_daily_coin_claim.
  cbn [claim set_last_coin_claim last_coin_claim id add_coins set_coins].
  rewrite Hid.
  destruct triggers; cbn [andb];
    [destruct (is_distinct_from (last_coin_claim u) (Some (today o)))|];
    cbn [users with_users insert_coin_transaction]; rewrite Hafter;
    eexists; (split; [reflexivity|]); cbn [users coin_transactions with_users];
    rewrite ?app_nil_r; auto.
Qed.

End DeployFacts.

Section Sessions.

Context {P : Platform} {L : JwtLaws P}.

Lemma signed_token_passes userId mail next d :
  authenticateToken (authorization (jwt_sign userId mail)) next d
  = next userId d.
Proof.
  destruct (jwt_word userId mail) as [Hne Hfree].
  eapply authenticateToken_passes.
  - now apply bearer_authorization.
  - apply jwt_roundtrip.
Qed.

(** C10: a registration that answers 200 hands out a signed token for the
    account it created.  That account is not verified, and a login with
    its email is refused with "Please verify your email first" whatever the
    password.  Yet the token passes [authenticateToken] for that account at
    once: a daily claim with it is paid, POST /api/bots with it runs the
    deployment route for the account, and a chat message with it is
    stored. *)
Theorem registration_opens_session o name mail pw code d res d' :
  post_register o name mail pw code d = (res, d') ->
  status res = 200%nat ->
  exists (userId : uuid) (shown : Z) (u : user),
    let token := jwt_sign userId mail in
    body res = JsonRegistered token userId name mail shown
    /\ select_user (by_id userId) d' = Some u
    /\ email u = mail
    /\ is_verified u = false
    /\ (forall pw',
          post_login mail pw' d'
          = (respond 400 (JsonError "Please verify your email first"), d'))
    /\ (forall o',
          fst (handle o' (POST_claim_daily_coins (authorization token)) d')
          = respond 200 (JsonCoins (coins u + 10)
                                   "10 coins claimed successfully"))
    /\ (forall o' r,
          handle o' (POST_bots (authorization token) r) d'
          = deploy_bot userId r d')
    /\ (forall o' text,
          (1 <= String.length text <= 1000)%nat ->
          fst (handle o' (POST_community_messages (authorization token)
                                                  (Some text)) d')
          = respond 200 (JsonChat (mkMessage (next_uuid d') userId text)
                                  name)).
Proof.
  intros Hreg Hok.
  destruct (post_register_new_row _ _ _ _ _ _ _ _ Hreg Hok)
    as (earlier & c & shown & Husers & Hpk & Hmail & Hc & ->).
  set (NEW := registered o name mail pw code d c) in *.
  assert (Hid : by_id (next_uuid d) NEW = true) by apply Nat.eqb_refl.
  assert (Hfind : select_user (by_id (next_uuid d)) d' = Some NEW).
  { unfold select_user. rewrite Husers.
    apply find_snoc_only; [now apply find_absent | exact Hid]. }
  exists (next_uuid d), shown, NEW. cbv zeta.
  split; [reflexivity|]. split; [exact Hfind|].
  split; [reflexivity|]. split; [reflexivity|].
  split; [|split; [|split]].
  - intro pw'. unfold post_login, select_user. rewrite Husers.
    rewrite (find_snoc_only (by_email mail) earlier NEW Hmail)
      by apply String.eqb_refl.
    reflexivity.
  - intro o'. cbn [handle]. rewrite signed_token_passes.
    unfold claim_daily_coins. rewrite Hfind.
    change (read_last_coin_claim NEW) with JNull. cbn [strict_eq].
    destruct (update_users_defined (by_id (next_uuid d)) (claim (today o')) d')
      as (rows & d1 & Hup).
    { rewrite Husers, (filter_snoc_only _ _ _ Hpk Hid). simpl.
      rewrite andb_true_r. change (coins_ok (c + 10) = true).
      destruct Hc as [-> | [-> | ->]]; reflexivity. }
    rewrite Hup. apply update_users_spec in Hup.
    destruct Hup as (_ & _ & U1 & _).
    unfold select_user in *. rewrite U1, find_map_preserving, Hfind.
    + cbn [option_map]. rewrite Hid. reflexivity.
    + intro x. now destruct (by_id (next_uuid d) x) eqn:E.
  - intros o' r. cbn [handle]. now rewrite signed_token_passes.
  - intros o' text [Hlo Hhi]. cbn [handle]. rewrite signed_token_passes.
    unfold send_community_message, insert_community_messages.
    apply Nat.leb_le in Hlo, Hhi. rewrite Hlo, Hhi.
    assert (Hhas : has_user (next_uuid d) (users d') = true)
      by (apply (find_present _ _ _ Hfind)).
    rewrite Hhas. cbn [andb msg_user_id]. unfold select_user in *.
    cbn [users]. rewrite Hfind. reflexivity.
Qed.

End Sessions.

Lemma registration_opens_session_witness :
  let d' := run (P := postgres) [signup_alice] empty_db in
  exists (userId : uuid) (shown : Z) (u : user),
    let token := jwt_sign (Platform := postgres) userId "alice@example.com" in
    body (respond 200 (JsonRegistered alice_token 0 "alice"
                                      "alice@example.com" 0))
    = JsonRegistered token userId "alice" "alice@example.com" shown
    /\ select_user (by_id userId) d' = Some u
    /\ email u = "alice@example.com"
    /\ is_verified u = false
    /\ (forall pw',
          post_login (P := postgres) "alice@example.com" pw' d'
          = (respond 400 (JsonError "Please verify your email first"), d'))
    /\ (forall o',
          fst (handle (P := postgres) o'
                 (POST_claim_daily_coins (authorization token)) d')
          = respond 200 (JsonCoins (coins u + 10)
                                   "10 coins claimed successfully"))
    /\ (forall o' r,
          handle (P := postgres) o' (POST_bots (authorization token) r) d'
          = deploy_bot (P := postgres) userId r d')
    /\ (forall o' text,
          (1 <= String.length text <= 1000)%nat ->
          fst (handle (P := postgres) o'
                 (POST_community_messages (authorization token) (Some text))
                 d')
          = respond 200 (JsonChat (mkMessage (next_uuid d') userId text)
                                  "alice")).
Proof.
  apply (registration_opens_session (P := postgres)
           (mkIo "AB12CD" "k3x9tok1" "2026-11-01" true)
           "alice" "alice@example.com" "correct horse" None empty_db
           (respond 200 (JsonRegistered alice_token 0 "alice"
                                        "alice@example.com" 0))
           (run (P := postgres) [signup_alice] empty_db)).
  - reflexivity.
  - reflexivity.
Defined.

Section ReferralFacts.

Context {P : Platform}.

(** Every referred registration that answers 200, not only the one of the
    example: with the triggers the new account holds 100 coins and the
    referrer 200 more than before; without them 50 and 100, and no row
    is written to [referrals]. *)
Lemma referred_registration_balances o name mail pw code d res d' r a :
  post_register o name mail pw code d = (res, d') ->
  status res = 200%nat ->
  resolve_referrer code d = Some r ->
  balance r d = Some a ->
  body res = JsonRegistered (jwt_sign (next_uuid d) mail) (next_uuid d)
                            name mail 50
  /\ balance (next_uuid d) d' = Some (if triggers then 100 else 50)
  /\ balance r d' = Some (a + (if triggers then 200 else 100))
  /\ referrals d'
     = (referrals d
        ++ if triggers then [mkReferral r (next_uuid d) true] else [])%list.
Proof.
  intros Hreg Hok Href Ha.
  destruct (post_register_success _ _ _ _ _ _ _ _ Hreg Hok)
    as (Hpk & _ & _ & _ & Hcase).
  rewrite Href in Hcase. destruct Hcase as (-> & Hr & Hrows).
  split; [reflexivity|].
  unfold balance, select_user in *.
  destruct (find (by_id r) (users d)) as [u|] eqn:Hu; [|discriminate].
  injection Ha as <-.
  assert (Hru : by_id r u = true) by (apply (find_some _ _ Hu)).
  assert (Hnew : forall k c,
             find (by_id (next_uuid d))
                  (credit r k (users d) ++ [registered o name mail pw code d c])
             = Some (registered o name mail pw code d c)).
  { intros k c. apply find_snoc_only; [|apply Nat.eqb_refl].
    apply find_absent. now rewrite has_user_credit. }
  assert (Hold : forall k c,
             find (by_id r)
                  (credit r k (users d) ++ [registered o name mail pw code d c])
             = Some (add_coins k u)).
  { intros k c. apply find_app_l. rewrite find_credit, Hu. simpl.
    now rewrite Hru. }
  destruct triggers; destruct Hrows as [-> ->];
    rewrite Hnew, Hold, ?app_nil_r; repeat split.
Qed.

End ReferralFacts.

(** * Beyond the coin economy *)

(** ** The migration script *)

Lemma split_not_nil (sep : ascii) (s : string) : split sep s <> [].
Proof.
  destruct s as [|c r]; simpl; [discriminate|].
  destruct (Ascii.eqb c sep); [discriminate|].
  destruct (split sep r); discriminate.
Qed.

Lemma concat_cons_char (sep : string) (c : ascii) (h : string)
      (t : list string) :
  String.concat sep (String c h :: t) = String c (String.concat sep (h :: t)).
Proof. destruct t; reflexivity. Qed.

(** X1: [split] loses nothing.  Joining the pieces of [s.split(sep)] with
    the separator gives [s] back, whatever the text and the separator. *)
Theorem split_join (sep : ascii) (s : string) :
  String.concat (String sep EmptyString) (split sep s) = s.
Proof.
  induction s as [|c r IH]; [reflexivity|].
  simpl split. destruct (Ascii.eqb_spec c sep) as [->|Hne].
  - destruct (split sep r) as [|h t] eqn:Hr;
      [now apply split_not_nil in Hr|].
    simpl String.concat. simpl in IH. now rewrite IH.
  - destruct (split sep r) as [|h t] eqn:Hr;
      [now apply split_not_nil in Hr|].
    rewrite concat_cons_char. now rewrite IH.
Qed.

Lemma split_pieces (sep : ascii) (s piece : string) :
  In piece (split sep s) ->
  forall c, In c (chars piece) -> c <> sep /\ In c (chars s).
Proof.
  revert piece. induction s as [|c0 r IH]; intros piece Hin c Hc.
  - destruct Hin as [<-|[]]. destruct Hc.
  - simpl in Hin. destruct (Ascii.eqb_spec c0 sep) as [->|Hne].
    + destruct Hin as [<-|Hin]; [destruct Hc|].
      destruct (IH _ Hin _ Hc). split; [assumption|]. now right.
    + destruct (split sep r) as [|h t] eqn:Hr;
        [now apply split_not_nil in Hr|].
      destruct Hin as [<-|Hin].
      * destruct Hc as [<-|Hc]; [split; [assumption | now left]|].
        destruct (IH h (or_introl eq_refl) _ Hc).
        split; [assumption | now right].
      * destruct (IH piece (or_intror Hin) _ Hc).
        split; [assumption | now right].
Qed.

(** X2: every statement the migration sends is a piece of the schema text
    that holds something other than whitespace, followed by one semicolon;
    the piece itself holds no semicolon.  So a statement of the schema
    with a semicolon inside it, such as a function with a dollar-quoted
    body, is never sent whole. *)
Theorem migration_statements_have_one_semicolon (schemaSql sql : string) :
  In sql (migration_statements schemaSql) ->
  exists piece,
    sql = piece ++ ";"
    /\ trim_truthy piece = true
    /\ forall c, In c (chars piece) -> c <> ";"%char /\ In c (chars schemaSql).
Proof.
  unfold migration_statements. intro Hin.
  apply in_map_iff in Hin. destruct Hin as (piece & <- & Hpiece).
  apply filter_In in Hpiece. destruct Hpiece as [Hsplit Htrim].
  exists piece. repeat split; try assumption;
    now destruct (split_pieces _ _ _ Hsplit _ H).
Qed.

Lemma migration_statements_have_one_semicolon_witness :
  exists piece,
    "CREATE TABLE t (id INT);" = piece ++ ";"
    /\ trim_truthy piece = true
    /\ forall c, In c (chars piece) ->
                 c <> ";"%char
                 /\ In c (chars "CREATE TABLE t (id INT); -- done ;").
Proof.
  apply (migration_statements_have_one_semicolon
           "CREATE TABLE t (id INT); -- done ;" "CREATE TABLE t (id INT);").
  vm_compute. now left.
Defined.

Lemma filter_none {A} (p : A -> bool) (l : list A) :
  (forall x, In x l -> p x = false) -> filter p l = [].
Proof.
  induction l as [|x l IH]; intro H; simpl; [reflexivity|].
  rewrite (H x (or_introl eq_refl)). apply IH. intros y Hy. apply H. now right.
Qed.

Section MigrationFacts.

Variable Postgres : Type.
Variable query : string -> Postgres -> option string * Postgres.

(** X3: the migration runs its statements in order and stops for good at
    the first error it does not tolerate: running [l1] then [l2] is
    running [l2] from where [l1] ended if [l1] completed, and is the
    failure of [l1], with nothing of [l2] sent, otherwise. *)
Theorem run_statements_app (l1 l2 : list string) (s : Postgres) :
  run_statements Postgres query (l1 ++ l2) s
  = match run_statements Postgres query l1 s with
    | (MigrationCompleted, s1) => run_statements Postgres query l2 s1
    | failure => failure
    end.
Proof.
  revert s. induction l1 as [|sql l1 IH]; intro s; simpl; [reflexivity|].
  destruct (query sql s) as [[message|] s1]; [|apply IH].
  destruct (includes "already exists" message); [apply IH | reflexivity].
Qed.

(** X4: a schema text made of whitespace and semicolons only (the empty
    text too) sends nothing to the database and completes. *)
Theorem runMigrations_blank (schemaSql : string) (s : Postgres) :
  (forall c, In c (chars schemaSql) ->
             js_whitespace c = true \/ c = ";"%char) ->
  runMigrations Postgres query schemaSql s = (MigrationCompleted, s).
Proof.
  intro Hblank. unfold runMigrations, migration_statements.
  replace (filter trim_truthy (split ";" schemaSql)) with (@nil string);
    [reflexivity|].
  symmetry. apply filter_none. intros piece Hpiece.
  unfold trim_truthy. apply not_true_iff_false. intro Hex.
  apply existsb_exists in Hex. destruct Hex as (c & Hc & Hnw).
  destruct (split_pieces _ _ _ Hpiece _ Hc) as [Hne Hin].
  destruct (Hblank c Hin) as [Hw|Heq]; [|contradiction].
  rewrite Hw in Hnw. discriminate.
Qed.

End MigrationFacts.

Lemma runMigrations_blank_witness :
  runMigrations nat (fun _ n => (Some "unreachable", S n)) " ;
 ; " 0%nat
  = (MigrationCompleted, 0%nat).
Proof.
  apply (runMigrations_blank nat (fun _ n => (Some "unreachable", S n))).
  intros c Hc. vm_compute in Hc.
  repeat (destruct Hc as [<-|Hc]; [auto|]). destruct Hc.
Defined.

(** X5: when the migration fails, it fails with the message of an error
    some statement of the schema raised, and that message does not
    include 'already exists': errors that do are passed over. *)
Theorem run_statements_failure (Postgres : Type)
        (query : string -> Postgres -> option string * Postgres)
        (l : list string) (s s' : Postgres) (message : string) :
  run_statements Postgres query l s = (MigrationFailed message, s') ->
  includes "already exists" message = false
  /\ exists sql s0, In sql l /\ query sql s0 = (Some message, s').
Proof.
  revert s. induction l as [|sql l IH]; intro s; simpl; [discriminate|].
  destruct (query sql s) as [[m|] s1] eqn:Hq.
  - destruct (includes "already exists" m) eqn:Hinc.
    + intro H. destruct (IH _ H) as (Hm & sql' & s0 & Hin & Hq').
      split; [assumption|]. exists sql', s0. split; [now right | assumption].
    + intro H; injection H as <- <-. split; [assumption|].
      exists sql, s. split; [now left | assumption].
  - intro H. destruct (IH _ H) as (Hm & sql' & s0 & Hin & Hq').
    split; [assumption|]. exists sql', s0. split; [now right | assumption].
Qed.

Lemma run_statements_failure_witness :
  includes "already exists" "syntax error" = false
  /\ exists sql s0,
       In sql ["CREATE TABLE t ();"; "CREATE OR REPLACE FUNCTION f() AS $$;";
               "CREATE INDEX i ON t ();"]
       /\ (fun sql (n : nat) =>
             (if String.prefix "CREATE TABLE" sql
              then Some "relation t already exists"
              else Some "syntax error", S n)) sql s0
          = (Some "syntax error", 2%nat).
Proof.
  apply (run_statements_failure nat
           (fun sql (n : nat) =>
              (if String.prefix "CREATE TABLE" sql
               then Some "relation t already exists"
               else Some "syntax error", S n))
           ["CREATE TABLE t ();"; "CREATE OR REPLACE FUNCTION f() AS $$;";
            "CREATE INDEX i ON t ();"] 0%nat 2%nat "syntax error").
  reflexivity.
Defined.

(** ** Routes as sequences of statements *)

Lemma same_identity_refl (u : user) : same_identity u u.
Proof. repeat split; auto. Qed.

Lemma same_identity_trans (u v w : user) :
  same_identity u v -> same_identity v w -> same_identity u w.
Proof.
  unfold same_identity.
  intros (a1 & a2 & a3 & a4 & a5 & a6 & a7 & a8 & a9)
         (b1 & b2 & b3 & b4 & b5 & b6 & b7 & b8 & b9).
  repeat split; try congruence. auto.
Qed.

Lemma same_identity_add_coins n u : same_identity u (add_coins n u).
Proof. repeat split; auto. Qed.

Lemma same_identity_claim day u : same_identity u (claim day u).
Proof. repeat split; auto. Qed.

Lemma same_identity_verified u : same_identity u (set_is_verified u true).
Proof. repeat split; auto. Qed.

Lemma same_identity_if (cond : user -> bool) (set : user -> user) :
  (forall u, same_identity u (set u)) ->
  forall u, same_identity u (if cond u then set u else u).
Proof.
  intros H u. destruct (cond u); [apply H | apply same_identity_refl].
Qed.

Section StatementSequences.

Context {P : Platform}.

Lemma statements_one d d' : statement d d' -> statements d d'.
Proof. intro H. eapply one_more; [apply no_statement | exact H]. Qed.

Lemma statements_trans d1 d2 d3 :
  statements d1 d2 -> statements d2 d3 -> statements d1 d3.
Proof.
  intros H12 H23. induction H23 as [|d2 d3 d4 _ IH Hs]; [assumption|].
  eapply one_more; [apply IH; assumption | exact Hs].
Qed.

Lemma post_register_statements o name mail pw code d :
  statements d (snd (post_register o name mail pw code d)).
Proof.
  unfold post_register.
  destruct (existsb _ _); [apply no_statement|].
  destruct (insert_users _ _ _ _ _ _ _ d) as [[row d1]|] eqn:Hin;
    [|apply no_statement].
  assert (H1 : statements d d1)
    by (eapply statements_one, stmt_insert_users, Hin).
  destruct (resolve_referrer code d) as [r|]; cbn [option_map].
  - destruct (update_users _ _ d1) as [[rows d2]|] eqn:Hup; cbn [snd];
      [|assumption].
    assert (H2 : statements d d2).
    { eapply one_more; [exact H1|].
      eapply stmt_update_users; [|exact Hup]. apply same_identity_add_coins. }
    destruct (mail_delivered o); assumption.
  - destruct (mail_delivered o); assumption.
Qed.

Lemma get_verify_email_statements token d :
  statements d (snd (get_verify_email token d)).
Proof.
  unfold get_verify_email.
  destruct (update_users _ _ d) as [[rows d1]|] eqn:Hup;
    [|apply no_statement].
  assert (statements d d1).
  { eapply statements_one, stmt_update_users; [|exact Hup].
    apply same_identity_verified. }
  destruct rows; assumption.
Qed.

Lemma claim_daily_coins_statements o userId d :
  statements d (snd (claim_daily_coins o userId d)).
Proof.
  unfold claim_daily_coins.
  destruct (select_user _ d); [|apply no_statement].
  destruct (strict_eq _ _); [apply no_statement|].
  destruct (update_users _ _ d) as [[rows d1]|] eqn:Hup;
    [|apply no_statement].
  assert (statements d d1).
  { eapply statements_one, stmt_update_users; [|exact Hup].
    apply same_identity_claim. }
  destruct (select_user _ d1); assumption.
Qed.

Lemma deploy_bot_statements userId r d :
  statements d (snd (deploy_bot userId r d)).
Proof.
  unfold deploy_bot.
  destruct (select_user _ d) as [u|]; [|apply no_statement].
  destruct (coins u <? 50); [apply no_statement|].
  destruct (update_users _ _ d) as [[rows d1]|] eqn:Hup;
    [|apply no_statement].
  assert (H1 : statements d d1).
  { eapply statements_one, stmt_update_users; [|exact Hup].
    apply same_identity_add_coins. }
  destruct (insert_bots userId r d1) as [[b d2]|] eqn:Hb; cbn [snd];
    [|assumption].
  eapply one_more; [exact H1 | eapply stmt_insert_bots, Hb].
Qed.

Lemma send_community_message_statements userId m d :
  statements d (snd (send_community_message userId m d)).
Proof.
  unfold send_community_message.
  destruct (insert_community_messages userId m d) as [[row d1]|] eqn:Hin;
    [|apply no_statement].
  assert (statements d d1)
    by (eapply statements_one, stmt_insert_community_messages, Hin).
  destruct (select_user _ d1); assumption.
Qed.

Lemma handle_statements o r d : statements d (snd (handle o r d)).
Proof.
  destruct r as [name mail pw code|mail pw|token|auth|auth r|auth m];
    cbn [handle]; unfold authenticateToken.
  - apply post_register_statements.
  - unfold post_login. destruct (select_user _ d) as [u|];
      [|apply no_statement].
    destruct (negb (is_verified u)); [apply no_statement|].
    destruct (negb (bcrypt_compare _ _)); apply no_statement.
  - apply get_verify_email_statements.
  - destruct (bearer auth) as [t|]; [|apply no_statement].
    destruct (jwt_verify t) as [[userId mail]|]; [|apply no_statement].
    apply claim_daily_coins_statements.
  - destruct (bearer auth) as [t|]; [|apply no_statement].
    destruct (jwt_verify t) as [[userId mail]|]; [|apply no_statement].
    apply deploy_bot_statements.
  - destruct (bearer auth) as [t|]; [|apply no_statement].
    destruct (jwt_verify t) as [[userId mail]|]; [|apply no_statement].
    apply send_community_message_statements.
Qed.

Lemma act_statements d a : statements d (act d a).
Proof.
  destruct a as [[o r|botId]|authHeader botId vars]; cbn [act step].
  - apply handle_statements.
  - apply statements_one, stmt_update_bots_status.
  - unfold authenticated, admin_update_env.
    destruct (bearer authHeader) as [t|]; [|apply no_statement].
    destruct (jwt_verify t) as [[userId mail]|]; [|apply no_statement].
    destruct (select_user _ d) as [u|]; [|apply no_statement].
    destruct (negb (is_admin u)); [apply no_statement|].
    destruct botId as [b|]; [|apply no_statement].
    apply statements_one, stmt_update_bots_env.
Qed.

Lemma acts_statements l d : statements d (acts l d).
Proof.
  unfold acts. revert d. induction l as [|a l IH]; intro d; simpl.
  - apply no_statement.
  - eapply statements_trans; [apply act_statements | apply IH].
Qed.

End StatementSequences.

(** ** What one statement does to each table *)

Lemma map_if_id {A B} (f : A -> B) (g : A -> A) (l : list A) :
  (forall x, f (g x) = f x) -> map f (map g l) = map f l.
Proof. intro H. rewrite map_map. now apply map_ext. Qed.

Lemma after_update_triggers_ledger (set : user -> user) (hit : list user)
      (d : db) :
  exists extra,
    coin_transactions
      (fold_left (fun acc u => handle_daily_coin_claim u (set u) acc) hit d)
    = (coin_transactions d ++ extra)%list
    /\ Forall credit_row extra.
Proof.
  revert d. induction hit as [|u hit IH]; intro d; simpl.
  - exists []. now rewrite app_nil_r.
  - destruct (IH (handle_daily_coin_claim u (set u) d)) as (extra & -> & Hx).
    unfold handle_daily_coin_claim.
    destruct (last_coin_claim (set u)); [|eauto].
    destruct (is_distinct_from _ _); [|eauto].
    cbn [insert_coin_transaction coin_transactions].
    rewrite <- app_assoc. eexists. split; [reflexivity|].
    constructor; [|assumption]. left. split; reflexivity.
Qed.

Section StatementShapes.

Context {P : Platform}.

Lemma update_users_ledger_grows cond set d rows d' :
  update_users cond set d = Some (rows, d') ->
  exists extra, coin_transactions d' = (coin_transactions d ++ extra)%list
                /\ Forall credit_row extra.
Proof.
  unfold update_users. destruct (forallb _ _); [|discriminate].
  intro H; injection H as _ <-. destruct triggers.
  - destruct (after_update_triggers_ledger set (filter cond (users d))
                (with_users d (map (fun u => if cond u then set u else u)
                                   (users d))))
      as (extra & Hl & Hx).
    exists extra. split; [exact Hl | exact Hx].
  - exists []. now rewrite app_nil_r.
Qed.

Lemma handle_referral_bonus_unique NEW r d d' :
  referrer_id NEW = Some r ->
  handle_referral_bonus NEW d = Some d' ->
  existsb (fun x => Nat.eqb (referred_id x) (id NEW)) (referrals d) = false.
Proof.
  intro Hr. unfold handle_referral_bonus. rewrite Hr.
  destruct (update_users (by_id r) _ d) as [[rows1 d1]|] eqn:H1;
    [|discriminate].
  apply update_users_spec in H1. destruct H1 as (_ & _ & _ & _ & _ & R1 & _).
  unfold insert_referrals. cbn [referred_id]. rewrite R1.
  destruct (existsb _ (referrals d)); [discriminate | reflexivity].
Qed.

(** An INSERT into [users] that goes through, trigger included. *)
Lemma insert_users_shape name mail pw code referrer token c d row d' :
  insert_users name mail pw code referrer token c d = Some (row, d') ->
  row = mkUser (next_uuid d) name mail pw code referrer token false false c
               None
  /\ users_row_ok row = true
  /\ users_unique row (users d) = true
  /\ has_user (id row) (users d) = false
  /\ (exists g, (forall u, same_identity u (g u))
                /\ users d' = map g (users d ++ [row]))
  /\ bots d' = bots d
  /\ community_messages d' = community_messages d
  /\ (exists extra, coin_transactions d' = (coin_transactions d ++ extra)%list
                    /\ Forall credit_row extra)
  /\ (referrals d' = referrals d
      \/ exists r, referrer = Some r
                   /\ existsb (fun x => Nat.eqb (referred_id x) (id row))
                              (referrals d) = false
                   /\ referrals d'
                      = (referrals d ++ [mkReferral r (id row) true])%list).
Proof.
  unfold insert_users.
  set (NEW := mkUser _ _ _ _ _ _ _ _ _ _ _).
  destruct (_ && _)%bool eqn:Hok; [|discriminate].
  apply andb_true_iff in Hok. destruct Hok as [Hok _].
  apply andb_true_iff in Hok. destruct Hok as [Hok Hpk].
  apply andb_true_iff in Hok. destruct Hok as [Hrow Huniq].
  apply negb_true_iff in Hpk.
  assert (Hplain : forall d1,
             users d1 = (users d ++ [NEW])%list -> bots d1 = bots d ->
             community_messages d1 = community_messages d ->
             coin_transactions d1 = coin_transactions d ->
             referrals d1 = referrals d ->
             Some (NEW, d1) = Some (row, d') ->
             row = NEW /\ users_row_ok row = true
             /\ users_unique row (users d) = true
             /\ has_user (id row) (users d) = false
             /\ (exists g, (forall u, same_identity u (g u))
                           /\ users d' = map g (users d ++ [row]))
             /\ bots d' = bots d
             /\ community_messages d' = community_messages d
             /\ (exists extra,
                    coin_transactions d' = (coin_transactions d ++ extra)%list
                    /\ Forall credit_row extra)
             /\ (referrals d' = referrals d
                 \/ exists r, referrer = Some r
                      /\ existsb (fun x => Nat.eqb (referred_id x) (id row))
                                 (referrals d) = false
                      /\ referrals d'
                         = (referrals d ++ [mkReferral r (id row) true])%list)).
  { intros d1 U B M L R H. injection H as <- <-.
    repeat split; try assumption.
    - exists (fun u => u). split; [apply same_identity_refl|].
      now rewrite map_id.
    - exists []. now rewrite app_nil_r.
    - now left. }
  destruct triggers; [|now apply Hplain].
  destruct (handle_referral_bonus NEW _) as [d2|] eqn:Hbonus; [|discriminate].
  destruct referrer as [r|].
  - pose proof (handle_referral_bonus_unique NEW r _ _ eq_refl Hbonus) as Hu.
    apply handle_referral_bonus_spec with (r := r) in Hbonus; [|reflexivity].
    cbn [users bots community_messages referrals coin_transactions] in *.
    destruct Hbonus as (U2 & R2 & L2 & B2 & M2 & _).
    intro H; injection H as <- <-.
    repeat split; try assumption.
    + exists (fun u => if by_id (id NEW) u
                       then add_coins 50 (if by_id r u then add_coins 100 u
                                          else u)
                       else if by_id r u then add_coins 100 u else u).
      split.
      * intro u. destruct (by_id (id NEW) u), (by_id r u);
          repeat split; auto.
      * rewrite U2. unfold credit. rewrite map_map. apply map_ext.
        intro u. destruct (by_id r u) eqn:E; [|reflexivity].
        replace (by_id (id NEW) (add_coins 100 u)) with (by_id (id NEW) u)
          by reflexivity.
        reflexivity.
    + eexists. split; [exact L2|].
      constructor; [right; split; [reflexivity | now left]|].
      constructor; [right; split; [reflexivity | now right]|]. constructor.
    + right. exists r. repeat split; assumption.
  - unfold handle_referral_bonus in Hbonus. cbn [referrer_id NEW] in Hbonus.
    injection Hbonus as <-. now apply Hplain.
Qed.

Lemma insert_community_messages_shape userId m d row d' :
  insert_community_messages userId m d = Some (row, d') ->
  users d' = users d /\ bots d' = bots d
  /\ coin_transactions d' = coin_transactions d
  /\ referrals d' = referrals d
  /\ community_messages d' = (community_messages d ++ [row])%list
  /\ msg_user_id row = userId
  /\ m = Some (message row)
  /\ (1 <= String.length (message row) <= 1000)%nat
  /\ has_user userId (users d) = true.
Proof.
  unfold insert_community_messages. destruct m as [text|]; [|discriminate].
  destruct (_ && _)%bool eqn:Hok; [|discriminate].
  apply andb_true_iff in Hok. destruct Hok as [Hok Hu].
  apply andb_true_iff in Hok. destruct Hok as [Hlo Hhi].
  apply Nat.leb_le in Hlo, Hhi.
  intro H; injection H as <- <-. cbn. repeat split; assumption.
Qed.

Lemma insert_bots_shape userId r d b d' :
  insert_bots userId r d = Some (b, d') ->
  users d' = users d /\ community_messages d' = community_messages d
  /\ coin_transactions d' = coin_transactions d
  /\ referrals d' = referrals d
  /\ bots d' = (bots d ++ [b])%list
  /\ bot_user_id b = userId /\ bot_status_of b = pending
  /\ has_user userId (users d) = true.
Proof.
  unfold insert_bots. destruct (botName r), (repoUrl r); try discriminate.
  destruct (_ && _)%bool eqn:Hok; [|discriminate].
  apply andb_true_iff in Hok. destruct Hok as [_ Hu].
  intro H; injection H as <- <-. cbn. repeat split; assumption.
Qed.

End StatementShapes.

(** ** Invariants over every sequence of statements *)

Lemma accounts_kept_refl us : accounts_kept us us.
Proof.
  exists (fun u => u), []. rewrite map_id, app_nil_r.
  repeat split; auto.
Qed.

Lemma accounts_kept_trans us1 us2 us3 :
  accounts_kept us1 us2 -> accounts_kept us2 us3 -> accounts_kept us1 us3.
Proof.
  intros (g1 & e1 & -> & H1 & F1) (g2 & e2 & -> & H2 & F2).
  exists (fun u => g2 (g1 u)), (map g2 e1 ++ e2)%list.
  rewrite map_app, map_map, app_assoc. split; [reflexivity|]. split.
  - intro u. eapply same_identity_trans; [apply H1 | apply H2].
  - apply Forall_app; split; [|assumption].
    rewrite Forall_forall in *. intros x Hx.
    apply in_map_iff in Hx. destruct Hx as (u & <- & Hu).
    destruct (H2 u) as (_ & _ & _ & _ & _ & _ & _ & -> & _). now apply F1.
Qed.

Lemma accounts_kept_find us us' i u :
  accounts_kept us us' ->
  find (by_id i) us = Some u ->
  exists u', find (by_id i) us' = Some u' /\ same_identity u u'.
Proof.
  intros (g & extra & -> & Hg & _) Hfind.
  exists (g u). split; [|apply Hg].
  apply find_app_l. rewrite find_map_preserving, Hfind; [reflexivity|].
  intro x. unfold by_id. now destruct (Hg x) as (-> & _).
Qed.

Lemma NoDup_snoc {A} (l : list A) (x : A) :
  NoDup l -> ~ In x l -> NoDup (l ++ [x]).
Proof.
  intros Hl Hx. induction Hl as [|y l Hy Hl IH]; simpl.
  - constructor; [intros []|constructor].
  - constructor.
    + intro H. apply in_app_or in H. destruct H as [H|[H|[]]];
        [contradiction|]. apply Hx. now left.
    + apply IH. intro H. apply Hx. now right.
Qed.

Lemma users_unique_not_in (u : user) (us : list user) :
  users_unique u us = true ->
  ~ In (username u) (map username us) /\ ~ In (email u) (map email us)
  /\ ~ In (referral_code u) (map referral_code us).
Proof.
  unfold users_unique. intro H. apply negb_true_iff in H.
  assert (Hall : forall v, In v us ->
             String.eqb (username v) (username u) = false
             /\ String.eqb (email v) (email u) = false
             /\ String.eqb (referral_code v) (referral_code u) = false).
  { intros v Hv.
    destruct (String.eqb (username v) (username u)
              || String.eqb (email v) (email u)
              || String.eqb (referral_code v) (referral_code u))%bool eqn:E.
    - exfalso. assert (existsb (fun v => String.eqb (username v) (username u)
                                  || String.eqb (email v) (email u)
                                  || String.eqb (referral_code v)
                                                (referral_code u))%bool us
                       = true)
        by (apply existsb_exists; eauto).
      congruence.
    - apply orb_false_iff in E. destruct E as [E E3].
      apply orb_false_iff in E. destruct E as [E1 E2]. auto. }
  repeat split; intro Hin; apply in_map_iff in Hin;
    destruct Hin as (v & Heq & Hv); destruct (Hall v Hv) as (E1 & E2 & E3);
    rewrite Heq, String.eqb_refl in *; discriminate.
Qed.

Lemma has_user_not_in (i : uuid) (us : list user) :
  has_user i us = false -> ~ In i (map id us).
Proof.
  unfold has_user. intros H Hin. apply in_map_iff in Hin.
  destruct Hin as (v & Heq & Hv).
  assert (existsb (fun v => Nat.eqb (id v) i) us = true).
  { apply existsb_exists. exists v. split; [assumption|].
    rewrite Heq. apply Nat.eqb_refl. }
  congruence.
Qed.

Section TableInvariants.

Context {P : Platform}.

Lemma statement_tables d d' :
  statement d d' ->
  (exists g extra,
      users d' = (map g (users d) ++ extra)%list
      /\ (forall u, same_identity u (g u))
      /\ (extra = []
          \/ exists row, extra = [row] /\ is_admin row = false
                         /\ users_unique row (users d) = true
                         /\ has_user (id row) (users d) = false
                         /\ (referrals d' = referrals d
                             \/ exists r,
                                 referrer_id row = Some r
                                 /\ existsb (fun x => Nat.eqb (referred_id x)
                                                              (id row))
                                            (referrals d) = false
                                 /\ referrals d'
                                    = (referrals d
                                       ++ [mkReferral r (id row) true])%list))
      /\ (extra = [] -> referrals d' = referrals d))
  /\ (exists extra, coin_transactions d' = (coin_transactions d ++ extra)%list
                    /\ Forall credit_row extra).
Proof.
  intro Hs. destruct Hs as
      [cond set d rows d' Hset Hup
      | name mail pw code referrer token c d row d' Hin
      | userId r d b d' Hb
      | userId m d row d' Hm
      | botId d
      | botId vars d].
  - pose proof (update_users_ledger_grows _ _ _ _ _ Hup) as Hl.
    apply update_users_spec in Hup.
    destruct Hup as (_ & _ & U & _ & _ & R & _).
    split; [|exact Hl].
    exists (fun u => if cond u then set u else u), [].
    rewrite app_nil_r. repeat split; auto; now apply same_identity_if.
  - apply insert_users_shape in Hin.
    destruct Hin as (Hrow & _ & Huniq & Hpk & (g & Hg & U) & _ & _ & Hl & Hr).
    split; [|exact Hl].
    exists g, [g row]. rewrite U, map_app. split; [reflexivity|].
    split; [exact Hg|]. split.
    + right. exists (g row).
      destruct (Hg row) as (Eid & En & Em & _ & Ec & Er & _ & Ea & _).
      split; [reflexivity|]. split; [rewrite Ea, Hrow; reflexivity|].
      split.
      { unfold users_unique in *. rewrite En, Em, Ec. exact Huniq. }
      split; [now rewrite Eid|].
      destruct Hr as [Hr|(r & Href & Hex & Hr)]; [now left|].
      right. exists r. rewrite Er, Eid.
      repeat split; try assumption. rewrite Hrow. exact Href.
    + discriminate.
  - apply insert_bots_shape in Hb.
    destruct Hb as (U & _ & L & R & _).
    split; [|exists []; now rewrite app_nil_r].
    exists (fun u => u), []. rewrite map_id, app_nil_r, U.
    repeat split; auto.
  - apply insert_community_messages_shape in Hm.
    destruct Hm as (U & _ & L & R & _).
    split; [|exists []; now rewrite app_nil_r].
    exists (fun u => u), []. rewrite map_id, app_nil_r, U.
    repeat split; auto.
  - split; [|exists []; now rewrite app_nil_r].
    exists (fun u => u), []. rewrite map_id, app_nil_r. repeat split; auto.
  - split; [|exists []; now rewrite app_nil_r].
    exists (fun u => u), []. rewrite map_id, app_nil_r. repeat split; auto.
Qed.

Lemma statements_accounts_kept d d' :
  statements d d' -> accounts_kept (users d) (users d').
Proof.
  induction 1 as [d|d1 d2 d3 _ IH Hs]; [apply accounts_kept_refl|].
  eapply accounts_kept_trans; [exact IH|].
  destruct (statement_tables _ _ Hs) as ((g & extra & U & Hg & Hx & _) & _).
  exists g, extra. split; [exact U|]. split; [exact Hg|].
  destruct Hx as [->|(row & -> & Ha & _)];
    [constructor | constructor; [exact Ha | constructor]].
Qed.

Lemma statements_keys_unique d d' :
  statements d d' -> keys_unique (users d) -> keys_unique (users d').
Proof.
  induction 1 as [d|d1 d2 d3 _ IH Hs]; [auto|]. intro H1.
  specialize (IH H1). destruct IH as (Ki & Kn & Km & Kc).
  destruct (statement_tables _ _ Hs) as ((g & extra & U & Hg & Hx & _) & _).
  assert (Eid : map id (map g (users d2)) = map id (users d2))
    by (apply map_if_id; intro u; apply (Hg u)).
  assert (En : map username (map g (users d2)) = map username (users d2))
    by (apply map_if_id; intro u; apply (Hg u)).
  assert (Em : map email (map g (users d2)) = map email (users d2))
    by (apply map_if_id; intro u; apply (Hg u)).
  assert (Ec : map referral_code (map g (users d2))
               = map referral_code (users d2))
    by (apply map_if_id; intro u; apply (Hg u)).
  unfold keys_unique. rewrite U, !map_app, Eid, En, Em, Ec.
  destruct Hx as [->|(row & -> & _ & Huniq & Hpk & _)].
  - cbn [map]. rewrite !app_nil_r. auto.
  - destruct (users_unique_not_in _ _ Huniq) as (Nn & Nm & Nc).
    apply has_user_not_in in Hpk. cbn [map].
    repeat split; apply NoDup_snoc; assumption.
Qed.

Lemma statements_ledger d d' :
  statements d d' ->
  exists extra, coin_transactions d' = (coin_transactions d ++ extra)%list
                /\ Forall credit_row extra.
Proof.
  induction 1 as [d|d1 d2 d3 _ IH Hs].
  - exists []. now rewrite app_nil_r.
  - destruct IH as (e1 & E1 & F1).
    destruct (statement_tables _ _ Hs) as (_ & e2 & E2 & F2).
    exists (e1 ++ e2)%list. rewrite E2, E1, app_assoc.
    split; [reflexivity|]. apply Forall_app. auto.
Qed.

Lemma statements_referrals_sound d d' :
  statements d d' -> referrals_sound d -> referrals_sound d'.
Proof.
  induction 1 as [d|d1 d2 d3 _ IH Hs]; [auto|]. intro H1.
  specialize (IH H1). destruct IH as (Hnd & Hall).
  destruct (statement_tables _ _ Hs)
    as ((g & extra & U & Hg & Hx & Hnone) & _).
  assert (Hold : Forall (fun r => bonus_given r = true
                   /\ exists u, In u (users d3) /\ id u = referred_id r
                                /\ referrer_id u = Some (ref_referrer_id r))
                        (referrals d2)).
  { rewrite Forall_forall in *. intros r Hr.
    destruct (Hall r Hr) as (Hb & u & Hu & Hid & Href).
    split; [assumption|]. exists (g u).
    destruct (Hg u) as (Eid & _ & _ & _ & _ & Er & _).
    rewrite U, Eid, Er. repeat split; try assumption.
    apply in_or_app. left. now apply in_map. }
  unfold referrals_sound.
  destruct Hx as [->|(row & -> & _ & _ & _ & [Hr|(r & Href & Hex & Hr)])].
  - rewrite (Hnone eq_refl). auto.
  - rewrite Hr. auto.
  - rewrite Hr, map_app. cbn [map referred_id]. split.
    + apply NoDup_snoc; [assumption|]. intro Hin.
      apply in_map_iff in Hin. destruct Hin as (x & Hx & Hxin).
      assert (existsb (fun x => Nat.eqb (referred_id x) (id row))
                      (referrals d2) = true).
      { apply existsb_exists. exists x. split; [assumption|].
        rewrite Hx. apply Nat.eqb_refl. }
      congruence.
    + apply Forall_app. split; [exact Hold|].
      constructor; [|constructor]. split; [reflexivity|].
      exists row. cbn [referred_id ref_referrer_id].
      repeat split; try assumption.
      rewrite U. apply in_or_app. right. now left.
Qed.

End TableInvariants.

Section MoreTableInvariants.

Context {P : Platform}.

Lemma statement_bots_messages d d' :
  statement d d' ->
  (Forall pending_or_deployed (bots d) -> Forall pending_or_deployed (bots d'))
  /\ exists extra,
       community_messages d' = (community_messages d ++ extra)%list
       /\ Forall message_ok extra.
Proof.
  intro Hs. destruct Hs as
      [cond set d rows d' Hset Hup
      | name mail pw code referrer token c d row d' Hin
      | userId r d b d' Hb
      | userId m d row d' Hm
      | botId d
      | botId vars d].
  - apply update_users_spec in Hup.
    destruct Hup as (_ & _ & _ & -> & -> & _).
    split; [auto|]. exists []. now rewrite app_nil_r.
  - apply insert_users_shape in Hin.
    destruct Hin as (_ & _ & _ & _ & _ & -> & -> & _).
    split; [auto|]. exists []. now rewrite app_nil_r.
  - apply insert_bots_shape in Hb.
    destruct Hb as (_ & -> & _ & _ & -> & _ & Hp & _). split.
    + intro H. apply Forall_app. split; [assumption|].
      constructor; [now left | constructor].
    + exists []. now rewrite app_nil_r.
  - apply insert_community_messages_shape in Hm.
    destruct Hm as (_ & -> & _ & _ & -> & _ & _ & Hlen & _).
    split; [auto|]. exists [row]. split; [reflexivity|].
    constructor; [exact Hlen | constructor].
  - split; [|exists []; now rewrite app_nil_r].
    unfold deployment_timer. cbn [bots with_bots]. intro H.
    rewrite Forall_forall in *. intros b Hb.
    apply in_map_iff in Hb. destruct Hb as (b0 & <- & Hb0).
    destruct (Nat.eqb (bot_id b0) botId); [now right | now apply H].
  - split; [|exists []; now rewrite app_nil_r].
    unfold update_bots_env. cbn [bots with_bots]. intro H.
    rewrite Forall_forall in *. intros b Hb.
    apply in_map_iff in Hb. destruct Hb as (b0 & <- & Hb0).
    destruct (Nat.eqb (bot_id b0) botId); [|now apply H].
    exact (H b0 Hb0).
Qed.

Lemma statements_bots d d' :
  statements d d' ->
  Forall pending_or_deployed (bots d) -> Forall pending_or_deployed (bots d').
Proof.
  induction 1 as [d|d1 d2 d3 _ IH Hs]; [auto|]. intro H1.
  apply (proj1 (statement_bots_messages _ _ Hs)). auto.
Qed.

Lemma statements_messages d d' :
  statements d d' ->
  exists extra, community_messages d' = (community_messages d ++ extra)%list
                /\ Forall message_ok extra.
Proof.
  induction 1 as [d|d1 d2 d3 _ IH Hs].
  - exists []. now rewrite app_nil_r.
  - destruct IH as (e1 & E1 & F1).
    destruct (statement_bots_messages _ _ Hs) as (_ & e2 & E2 & F2).
    exists (e1 ++ e2)%list. rewrite E2, E1, app_assoc.
    split; [reflexivity|]. apply Forall_app. auto.
Qed.

(** X6: no request and no timer deletes an account or rewrites who it is.
    Whatever the server does, an account found under a key is still found
    under it, with the same username, email, password hash, referral code,
    referrer, verification token and admin flag; and once verified it stays
    verified. *)
Theorem account_identity_is_kept (l : list action) (d : db) (i : uuid)
        (u : user) :
  select_user (by_id i) d = Some u ->
  exists u', select_user (by_id i) (acts l d) = Some u' /\ same_identity u u'.
Proof.
  unfold select_user. intro Hfind.
  eapply accounts_kept_find; [|exact Hfind].
  apply statements_accounts_kept, acts_statements.
Qed.

(** X7: the primary key and the three UNIQUE columns of [users] stay
    duplicate-free over everything the server does: no two accounts ever
    share an id, a username, an email or a referral code. *)
Theorem unique_keys_are_kept (l : list action) (d : db) :
  keys_unique (users d) -> keys_unique (users (acts l d)).
Proof. apply statements_keys_unique, acts_statements. Qed.

(** X8: the ledger is append-only and holds credits only.  Whatever the
    server does, [coin_transactions] afterwards is the table before
    followed by new rows, each a daily claim of 10 or a referral bonus of
    100 or 50: no row is changed or removed, and no debit, admin grant or
    purchase is ever written. *)
Theorem ledger_is_append_only (l : list action) (d : db) :
  exists extra,
    coin_transactions (acts l d) = (coin_transactions d ++ extra)%list
    /\ Forall credit_row extra.
Proof. apply statements_ledger, acts_statements. Qed.

(** X9: [referrals] stays sound over everything the server does: at most
    one row per referred account, every row marked [bonus_given], and
    every row pointing at an account whose [referrer_id] is the row's
    referrer. *)
Theorem referrals_stay_sound (l : list action) (d : db) :
  referrals_sound d -> referrals_sound (acts l d).
Proof. apply statements_referrals_sound, acts_statements. Qed.

(** X10: a bot is only ever pending or deployed.  No request and no timer
    puts a bot in the states deploying, failed or stopped that the schema
    allows. *)
Theorem bots_are_pending_or_deployed (l : list action) (d : db) :
  Forall pending_or_deployed (bots d) ->
  Forall pending_or_deployed (bots (acts l d)).
Proof. apply statements_bots, acts_statements. Qed.

(** X11: chat messages are never edited or deleted, and every message the
    server stores is 1 to 1000 characters long. *)
Theorem messages_are_append_only (l : list action) (d : db) :
  exists extra,
    community_messages (acts l d) = (community_messages d ++ extra)%list
    /\ Forall message_ok extra.
Proof. apply statements_messages, acts_statements. Qed.

End MoreTableInvariants.

Lemma account_identity_is_kept_witness :
  exists u',
    select_user (by_id 1) (acts (P := postgres) busy_week seeded_db) = Some u'
    /\ same_identity
         (mkUser 1 "testuser" "test@example.com"
            "$2a$12$rD9P2bW6X3L1V7Q8Z9Y0OuKj2N3L4M5Q6R7S8T9U0V1W2X3Y4Z5"
            "TEST456" None None true false 100 None) u'.
Proof.
  apply (account_identity_is_kept (P := postgres) busy_week seeded_db 1).
  reflexivity.
Defined.

Lemma unique_keys_are_kept_witness :
  keys_unique (users (acts (P := postgres) busy_week seeded_db)).
Proof.
  apply (unique_keys_are_kept (P := postgres) busy_week seeded_db).
  unfold keys_unique. simpl.
  repeat split; repeat constructor; simpl; intuition discriminate.
Defined.

Lemma referrals_stay_sound_witness :
  referrals_sound (acts (P := postgres) busy_week empty_db).
Proof.
  apply (referrals_stay_sound (P := postgres) busy_week empty_db).
  split; simpl; constructor.
Defined.

Lemma bots_are_pending_or_deployed_witness :
  Forall pending_or_deployed (bots (acts (P := postgres) busy_week empty_db)).
Proof.
  apply (bots_are_pending_or_deployed (P := postgres) busy_week empty_db).
  simpl. constructor.
Defined.

(** ** Registration and the identity routes *)

Lemma existsb_filter_length {A} (p : A -> bool) (l : list A) :
  Nat.eqb (List.length (filter p l)) 0 = negb (existsb p l).
Proof.
  induction l as [|x l IH]; simpl; [reflexivity|].
  destruct (p x); simpl; [reflexivity | exact IH].
Qed.

Section RegistrationRoutes.

Context {P : Platform}.

Lemma register_taken_iff o name mail pw code d :
  post_register o name mail pw code d
  = (respond 400 (JsonError "User already exists"), d)
  <-> (check_username name d = ReplyAvailable false
       \/ check_email mail d = ReplyAvailable false).
Proof.
  unfold check_username, check_email, post_register, by_email.
  rewrite !existsb_filter_length.
  destruct (existsb (fun u => String.eqb (username u) name) (users d)) eqn:En;
    destruct (existsb (fun u => String.eqb (email u) mail) (users d)) eqn:Em;
    simpl.
  all: assert (Hex : existsb (fun u => (String.eqb (email u) mail
                                       || String.eqb (username u) name)%bool)
                            (users d)
                   = (existsb (fun u => String.eqb (email u) mail) (users d)
                      || existsb (fun u => String.eqb (username u) name)
                                 (users d))%bool)
      by (clear; induction (users d) as [|u us IH]; simpl;
          [reflexivity|]; rewrite IH;
          destruct (String.eqb (email u) mail),
                   (String.eqb (username u) name); simpl;
          rewrite ?orb_true_r; reflexivity).
  all: rewrite Hex, En, Em; simpl.
  1-3: split; auto.
  split; [|intros [H|H]; discriminate].
  destruct (insert_users _ _ _ _ _ _ _ d) as [[row d1]|]; [|discriminate].
  destruct (match resolve_referrer code d with
            | Some r => _
            | None => _
            end); [|discriminate].
  destruct (mail_delivered o); discriminate.
Qed.

(** X12: POST /api/register answers 400 exactly when one of the two
    availability routes reports the username or the email as taken, and
    then the answer is "User already exists" and nothing is written. *)
Theorem register_refuses_what_checks_report_taken o name mail pw code d :
  let taken := check_username name d = ReplyAvailable false
               \/ check_email mail d = ReplyAvailable false in
  (status (fst (post_register o name mail pw code d)) = 400%nat <-> taken)
  /\ (taken ->
      post_register o name mail pw code d
      = (respond 400 (JsonError "User already exists"), d)).
Proof.
  cbv zeta. split; [split|]; [|intro H|apply register_taken_iff].
  - intro H400. apply (register_taken_iff o name mail pw code d).
    revert H400. unfold post_register.
    destruct (existsb _ (users d)); [reflexivity|].
    destruct (insert_users _ _ _ _ _ _ _ d) as [[row d1]|];
      [|discriminate].
    destruct (match resolve_referrer code d with
              | Some r => _
              | None => _
              end); [|discriminate].
    destruct (mail_delivered o); discriminate.
  - apply (register_taken_iff o name mail pw code d) in H. now rewrite H.
Qed.

(** The [users] table after a registration that answered 200, with what
    became of the earlier rows. *)
Lemma post_register_new_row_kept o name mail pw code d res d' :
  post_register o name mail pw code d = (res, d') ->
  status res = 200%nat ->
  exists (g : user -> user) (c shown : Z),
    users d' = (map g (users d) ++ [registered o name mail pw code d c])%list
    /\ (forall u, same_identity u (g u))
    /\ has_user (next_uuid d) (users d) = false
    /\ find (by_email mail) (users d) = None
    /\ (c = 0 \/ c = 50 \/ c = 100)
    /\ res = respond 200 (JsonRegistered (jwt_sign (next_uuid d) mail)
                            (next_uuid d) name mail shown).
Proof.
  intros Hreg Hok.
  destruct (post_register_success _ _ _ _ _ _ _ _ Hreg Hok)
    as (Hpk & Hfree & _ & _ & Hcase).
  apply email_free in Hfree.
  destruct (resolve_referrer code d) as [r|].
  - destruct Hcase as (-> & _ & Hrows). destruct triggers.
    + destruct Hrows as [-> _].
      exists (fun u => if by_id r u then add_coins 200 u else u), 100, 50.
      split; [reflexivity|].
      split; [apply same_identity_if, same_identity_add_coins|].
      repeat split; auto.
    + destruct Hrows as [-> _].
      exists (fun u => if by_id r u then add_coins 100 u else u), 50, 50.
      split; [reflexivity|].
      split; [apply same_identity_if, same_identity_add_coins|].
      repeat split; auto.
  - destruct Hcase as (-> & -> & _).
    exists (fun u => u), 0, 0. rewrite map_id.
    split; [reflexivity|]. split; [apply same_identity_refl|].
    repeat split; auto.
Qed.

(** X13: a username and an email that were registered stay taken.  After
    a registration that answered 200 and whatever the server does next,
    both availability routes report them taken, and a further registration
    under that username or that email is refused with 400. *)
Theorem registered_identity_stays_taken
        o name mail pw code d res d' (l : list action) :
  post_register o name mail pw code d = (res, d') ->
  status res = 200%nat ->
  let later := acts l d' in
  check_username name later = ReplyAvailable false
  /\ check_email mail later = ReplyAvailable false
  /\ (forall o2 mail2 pw2 code2,
         post_register o2 name mail2 pw2 code2 later
         = (respond 400 (JsonError "User already exists"), later))
  /\ (forall o2 name2 pw2 code2,
         post_register o2 name2 mail pw2 code2 later
         = (respond 400 (JsonError "User already exists"), later)).
Proof.
  intros Hreg Hok later.
  destruct (post_register_new_row_kept _ _ _ _ _ _ _ _ Hreg Hok)
    as (g & c & shown & Husers & _).
  destruct (statements_accounts_kept _ _ (acts_statements l d'))
    as (h & extra & Hlater & Hh & _).
  fold later in Hlater. rewrite Husers in Hlater.
  set (NEW := registered o name mail pw code d c) in *.
  assert (Hin : In (h NEW) (users later)).
  { rewrite Hlater. apply in_or_app. left. apply in_map.
    apply in_or_app. right. now left. }
  destruct (Hh NEW) as (_ & Hn & Hm & _).
  assert (Hname : check_username name later = ReplyAvailable false).
  { unfold check_username. rewrite existsb_filter_length.
    replace (existsb _ (users later)) with true; [reflexivity|].
    symmetry. apply existsb_exists. exists (h NEW). split; [exact Hin|].
    rewrite Hn. apply String.eqb_refl. }
  assert (Hmail : check_email mail later = ReplyAvailable false).
  { unfold check_email. rewrite existsb_filter_length.
    replace (existsb _ (users later)) with true; [reflexivity|].
    symmetry. apply existsb_exists. exists (h NEW). split; [exact Hin|].
    unfold by_email. rewrite Hm. apply String.eqb_refl. }
  split; [exact Hname|]. split; [exact Hmail|]. split.
  - intros. apply register_taken_iff. now left.
  - intros. apply register_taken_iff. now right.
Qed.

End RegistrationRoutes.

Lemma registered_identity_stays_taken_witness :
  let later := acts (P := postgres) busy_week
                    (run (P := postgres) [signup_alice] seeded_db) in
  check_username "alice" later = ReplyAvailable false
  /\ check_email "alice@example.com" later
     = ReplyAvailable false
  /\ (forall o2 mail2 pw2 code2,
         post_register (P := postgres) o2 "alice" mail2 pw2 code2 later
         = (respond 400 (JsonError "User already exists"), later))
  /\ (forall o2 name2 pw2 code2,
         post_register (P := postgres) o2 name2 "alice@example.com" pw2 code2
                       later
         = (respond 400 (JsonError "User already exists"), later)).
Proof.
  apply (registered_identity_stays_taken (P := postgres)
           (mkIo "AB12CD" "k3x9tok1" "2026-11-01" true)
           "alice" "alice@example.com" "correct horse" None seeded_db
           (respond 200 (JsonRegistered (model_sign 2 "alice@example.com") 2
                                        "alice" "alice@example.com" 0))
           (run (P := postgres) [signup_alice] seeded_db) busy_week).
  - reflexivity.
  - reflexivity.
Defined.

Lemma token_mismatch (t : string) (u : user) :
  verification_token u <> Some t -> by_verification_token (Some t) u = false.
Proof.
  unfold by_verification_token. destruct (verification_token u) as [b|];
    [|reflexivity].
  intro H. destruct (String.eqb_spec b t); [subst; contradiction | reflexivity].
Qed.

Lemma map_unhit {A} (cond : A -> bool) (set : A -> A) (l : list A) :
  (forall x, In x l -> cond x = false) ->
  map (fun x => if cond x then set x else x) l = l.
Proof.
  intro H. rewrite <- (map_id l) at 2. apply map_ext_in.
  intros x Hx. now rewrite (H x Hx).
Qed.

Section Login.

Context {P : Platform}.

(** X14: register, verify, log in.  After a registration that answered
    200, GET /api/verify-email with the token that registration drew
    answers 200, and a login with the registered email and password then
    answers 200 with a token for the same account, provided bcrypt accepts
    a password against its own hash and no earlier account holds the same
    verification token. *)
Theorem register_verify_login o name mail pw code d res d' :
  (forall p, bcrypt_compare p (bcrypt_hash p) = true) ->
  (forall u, In u (users d) ->
             verification_token u <> Some (random_token o)) ->
  post_register o name mail pw code d = (res, d') ->
  status res = 200%nat ->
  exists d'' c,
    get_verify_email (Some (random_token o)) d'
    = (respond 200 (JsonMessage "Email verified successfully"), d'')
    /\ post_login mail pw d''
       = (respond 200 (JsonLoggedIn (jwt_sign (next_uuid d) mail)
                                    (next_uuid d) name mail c false), d'').
Proof.
  intros Hbcrypt Hfresh Hreg Hok.
  destruct (post_register_new_row_kept _ _ _ _ _ _ _ _ Hreg Hok)
    as (g & c & shown & Husers & Hg & _ & Hmail & Hc & _).
  set (NEW := registered o name mail pw code d c) in *.
  set (cond := by_verification_token (Some (random_token o))).
  assert (Hearlier : forall x, In x (map g (users d)) -> cond x = false).
  { intros x Hx. apply in_map_iff in Hx. destruct Hx as (u & <- & Hu).
    apply token_mismatch.
    destruct (Hg u) as (_ & _ & _ & _ & _ & _ & -> & _). now apply Hfresh. }
  assert (Hnew : cond NEW = true)
    by (unfold cond, by_verification_token; cbn; apply String.eqb_refl).
  assert (Hhit : filter cond (users d') = [NEW]).
  { rewrite Husers, filter_app, (filter_none _ _ Hearlier).
    cbn [filter app]. now rewrite Hnew. }
  destruct (update_users_defined cond (fun u => set_is_verified u true) d')
    as (rows & d1 & Hup).
  { rewrite Hhit. cbn [forallb]. rewrite andb_true_r.
    change (coins_ok c = true). destruct Hc as [-> | [-> | ->]]; reflexivity. }
  exists d1, c. unfold get_verify_email. fold cond. rewrite Hup.
  apply update_users_spec in Hup. destruct Hup as (_ & -> & U1 & _).
  rewrite Hhit. cbn [map]. split; [reflexivity|].
  unfold post_login, select_user.
  rewrite U1, Husers, map_app, (map_unhit _ _ _ Hearlier).
  cbn [map]. rewrite Hnew.
  rewrite find_app_r.
  - cbn [find]. unfold by_email at 1. cbn. rewrite String.eqb_refl.
    cbn. rewrite Hbcrypt. reflexivity.
  - rewrite find_map_preserving, Hmail; [reflexivity|].
    intro u. unfold by_email. now destruct (Hg u) as (_ & _ & -> & _).
Qed.


End Login.

Lemma register_verify_login_witness :
  exists d'' c,
    get_verify_email (P := postgres) (Some "k3x9tok1")
                     (run (P := postgres) [signup_alice] seeded_db)
    = (respond 200 (JsonMessage "Email verified successfully"), d'')
    /\ post_login (P := postgres) "alice@example.com" "correct horse" d''
       = (respond 200 (JsonLoggedIn (model_sign 2 "alice@example.com") 2
                                    "alice" "alice@example.com" c false), d'').
Proof.
  apply (register_verify_login (P := postgres)
           (mkIo "AB12CD" "k3x9tok1" "2026-11-01" true)
           "alice" "alice@example.com" "correct horse" None seeded_db
           (respond 200 (JsonRegistered (model_sign 2 "alice@example.com") 2
                                        "alice" "alice@example.com" 0))
           (run (P := postgres) [signup_alice] seeded_db)).
  - intro p. apply String.eqb_refl.
  - simpl. intros u [<-|[<-|[]]]; discriminate.
  - reflexivity.
  - reflexivity.
Defined.



Section RejectedRows.

Context {P : Platform}.


End RejectedRows.


(** ** Bots and messages *)

Lemma filter_unique_key i us u :
  NoDup (map id us) -> find (by_id i) us = Some u ->
  filter (by_id i) us = [u].
Proof.
  induction us as [|x us IH]; simpl; [discriminate|].
  intros Hnd Hfind. inversion Hnd as [|? ? Hx Hnd']; subst.
  destruct (by_id i x) eqn:Hix.
  - injection Hfind as ->. f_equal. apply filter_absent.
    unfold by_id in Hix. apply Nat.eqb_eq in Hix. subst i.
    destruct (has_user (id u) us) eqn:Hh; [|reflexivity].
    exfalso. apply Hx. unfold has_user in Hh. apply existsb_exists in Hh.
    destruct Hh as (v & Hv & Hid). apply Nat.eqb_eq in Hid.
    rewrite <- Hid. now apply in_map.
  - now apply IH.
Qed.

Section BotsAndMessages.

Context {P : Platform}.

(** X17: a deployment the [bots] table rejects still costs 50 coins.  For
    an account holding at least 50 coins, a request without a name,
    without a repository URL, or with a URL that is not on github.com is
    answered 500 "Failed to deploy bot" after the debit went through: the
    balance is 50 lower, and no bot was created. *)
Theorem rejected_deployment_still_costs_fifty userId r d u :
  filter (by_id userId) (users d) = [u] ->
  50 <= coins u <= 2147483647 ->
  botName r = None \/ repoUrl r = None
  \/ (exists url, repoUrl r = Some url /\ valid_repo_url url = false) ->
  exists d',
    deploy_bot userId r d
    = (respond 500 (JsonError "Failed to deploy bot"), d')
    /\ balance userId d' = Some (coins u - 50)
    /\ bots d' = bots d
    /\ coin_transactions d' = coin_transactions d.
Proof.
  intros Hone Hc Hbad.
  pose proof (find_of_filter _ _ _ _ Hone) as Hfind.
  unfold deploy_bot, select_user. rewrite Hfind.
  destruct (Z.ltb_spec (coins u) 50) as [Hlt|_]; [lia|].
  destruct (update_users_defined (by_id userId) (add_coins (-50)) d)
    as (rows & d1 & Hup).
  { rewrite Hone. simpl. unfold coins_ok, int4.
    rewrite andb_true_r, !andb_true_iff, !Z.leb_le. lia. }
  rewrite Hup.
  pose proof (update_users_ledger _ (add_coins (-50)) _ _ _
                (fun _ => eq_refl) Hup) as L1.
  apply update_users_spec in Hup.
  destruct Hup as (_ & _ & U1 & B1 & _).
  assert (Hnone : insert_bots userId r d1 = None).
  { unfold insert_bots.
    destruct Hbad as [->|[H|(url & H & Hurl)]]; [reflexivity| |].
    - rewrite H. now destruct (botName r).
    - rewrite H, Hurl. destruct (botName r); [|reflexivity].
      now rewrite !andb_false_r. }
  rewrite Hnone. exists d1. repeat split; try assumption.
  unfold balance, select_user. rewrite U1.
  fold (credit userId (-50) (users d)). rewrite find_credit, Hfind.
  cbn [option_map]. now rewrite (proj2 (find_some _ _ Hfind)).
Qed.

(** X18: a bot that was deployed is the first of its owner's list.  When
    POST /api/bots answers 200 with a bot, GET /api/bots for the same
    account then returns that bot followed by what it returned before,
    and the list of every other account is what it was. *)
Theorem deployed_bot_is_listed_first userId r d msg b d' rows :
  deploy_bot userId r d = (respond 200 (JsonBot msg b), d') ->
  get_bots userId d = ReplyBots rows ->
  get_bots userId d' = ReplyBots (b :: rows)
  /\ forall other, other <> userId -> get_bots other d' = get_bots other d.
Proof.
  unfold deploy_bot.
  destruct (select_user _ d) as [u|]; [|discriminate].
  destruct (coins u <? 50); [discriminate|].
  destruct (update_users _ _ d) as [[rows1 d1]|] eqn:Hup; [|discriminate].
  destruct (insert_bots userId r d1) as [[b1 d2]|] eqn:Hb; [|discriminate].
  intro H; injection H as _ -> ->.
  apply update_users_spec in Hup. destruct Hup as (_ & _ & _ & B1 & _).
  apply insert_bots_shape in Hb.
  destruct Hb as (_ & _ & _ & _ & B2 & Howner & _).
  unfold get_bots. rewrite B2, B1. intro H; injection H as <-.
  split.
  - rewrite filter_app, rev_app_distr. cbn [filter].
    rewrite Howner, Nat.eqb_refl. reflexivity.
  - intros other Hne. rewrite filter_app. cbn [filter].
    rewrite Howner. destruct (Nat.eqb_spec userId other);
      [subst; contradiction|].
    now rewrite app_nil_r.
Qed.

(** X19: a message that was posted is the first of the chat.  When POST
    /api/community/messages answers 200, GET /api/community/messages then
    returns the stored row with its author's username first, and 50 rows
    at most in all; the stored text is the text sent and its author the
    caller. *)
Theorem posted_message_is_listed_first userId m d row name d' :
  NoDup (map id (users d)) ->
  send_community_message userId m d = (respond 200 (JsonChat row name), d') ->
  m = Some (message row) /\ msg_user_id row = userId
  /\ exists rest,
       get_community_messages d' = ReplyMessages ((row, name) :: rest)
       /\ (List.length rest < 50)%nat.
Proof.
  intro Hnd. unfold send_community_message.
  destruct (insert_community_messages userId m d) as [[row1 d1]|] eqn:Hin;
    [|discriminate].
  apply insert_community_messages_shape in Hin.
  destruct Hin as (U & _ & _ & _ & M & Hauthor & Htext & _).
  unfold select_user. rewrite U, Hauthor.
  destruct (find (by_id userId) (users d)) as [u|] eqn:Hfind; [|discriminate].
  intro H; injection H as -> <- <-.
  split; [assumption|]. split; [assumption|].
  unfold get_community_messages, messages_with_username.
  rewrite M, U, flat_map_app. cbn [flat_map]. rewrite app_nil_r, Hauthor.
  rewrite (filter_unique_key _ _ _ Hnd Hfind). cbn [map].
  rewrite rev_app_distr. cbn [rev app]. rewrite firstn_cons.
  eexists. split; [reflexivity|].
  apply Nat.lt_succ_r, firstn_le_length.
Qed.

(** X20: a message that is missing, empty or longer than 1000 characters
    is answered 500 "Failed to send message" and nothing is stored. *)
Theorem unfit_message_is_not_stored userId m d :
  m = None
  \/ (exists text, m = Some text
                   /\ (String.length text = 0
                       \/ 1000 < String.length text)%nat) ->
  send_community_message userId m d
  = (respond 500 (JsonError "Failed to send message"), d).
Proof.
  intros [->|(text & -> & Hlen)]; [reflexivity|].
  unfold send_community_message, insert_community_messages.
  replace (Nat.leb 1 (String.length text)
           && Nat.leb (String.length text) 1000)%bool with false;
    [reflexivity|].
  symmetry. apply andb_false_iff. destruct Hlen as [H|H].
  - left. rewrite H. reflexivity.
  - right. now apply Nat.leb_gt.
Qed.

End BotsAndMessages.

Lemma rejected_deployment_still_costs_fifty_witness :
  let d := run (P := postgres) five_claims empty_db in
  exists d',
    deploy_bot (P := postgres) 0
               (mkBotRequest (Some "echo") (Some "https://gitlab.com/a/echo")
                             None None) d
    = (respond 500 (JsonError "Failed to deploy bot"), d')
    /\ balance 0 d' = Some (50 - 50)
    /\ bots d' = bots d
    /\ coin_transactions d' = coin_transactions d.
Proof.
  apply (rejected_deployment_still_costs_fifty (P := postgres) 0
           (mkBotRequest (Some "echo") (Some "https://gitlab.com/a/echo")
                         None None)
           (run (P := postgres) five_claims empty_db)
           (mkUser 0 "alice" "alice@example.com" "$2a$12$correct horse"
                   "aliceAB12CD" None (Some "k3x9tok1") false false 50
                   (Some "2026-11-06"))).
  - vm_compute; reflexivity.
  - vm_compute. split; discriminate.
  - right. right. exists "https://gitlab.com/a/echo". split; reflexivity.
Defined.

Lemma deployed_bot_is_listed_first_witness :
  let d := run (P := postgres) five_claims empty_db in
  let b := mkBot 1 0 "echo" "https://github.com/alice/echo-bot" (Some "{}")
                 None pending in
  get_bots 0 (snd (deploy_bot (P := postgres) 0 valid_bot d)) = ReplyBots [b]
  /\ forall other, other <> 0%nat ->
       get_bots other (snd (deploy_bot (P := postgres) 0 valid_bot d))
       = get_bots other d.
Proof.
  apply (deployed_bot_is_listed_first (P := postgres) 0 valid_bot
           (run (P := postgres) five_claims empty_db)
           "Bot deployment started"
           (mkBot 1 0 "echo" "https://github.com/alice/echo-bot" (Some "{}")
                  None pending)
           (snd (deploy_bot (P := postgres) 0 valid_bot
                   (run (P := postgres) five_claims empty_db)))
           []).
  - vm_compute; reflexivity.
  - vm_compute; reflexivity.
Defined.

Lemma posted_message_is_listed_first_witness :
  let d := run (P := postgres) [signup_alice] empty_db in
  Some "hello" = Some (message (mkMessage 1 0 "hello"))
  /\ msg_user_id (mkMessage 1 0 "hello") = 0%nat
  /\ exists rest,
       get_community_messages
         (snd (send_community_message 0 (Some "hello") d))
       = ReplyMessages ((mkMessage 1 0 "hello", "alice") :: rest)
       /\ (List.length rest < 50)%nat.
Proof.
  apply (posted_message_is_listed_first 0 (Some "hello")
           (run (P := postgres) [signup_alice] empty_db)
           (mkMessage 1 0 "hello") "alice"
           (snd (send_community_message 0 (Some "hello")
                   (run (P := postgres) [signup_alice] empty_db)))).
  - vm_compute. repeat constructor. intros [].
  - vm_compute; reflexivity.
Defined.

Lemma unfit_message_is_not_stored_witness :
  send_community_message 0 (Some "") seeded_db
  = (respond 500 (JsonError "Failed to send message"), seeded_db).
Proof.
  apply (unfit_message_is_not_stored 0 (Some "") seeded_db).
  right. exists "". split; [reflexivity|]. left. reflexivity.
Defined.

(** ** Admin routes, profile, claims, the Authorization header *)

Lemma unique_by (us : list user) (f : user -> string) (a b : user) :
  NoDup (map f us) -> In a us -> In b us -> f a = f b -> a = b.
Proof.
  intros Hnd. induction us as [|x us IH]; simpl; [intros []|].
  inversion Hnd as [|? ? Hx Hnd']; subst.
  intros [->|Ha] [->|Hb] Hf; auto.
  - exfalso. apply Hx. rewrite Hf. now apply in_map.
  - exfalso. apply Hx. rewrite <- Hf. now apply in_map.
Qed.

Lemma ledger_sum_insert i t d :
  ledger_sum i (insert_coin_transaction t d)
  = ledger_sum i d + (if Nat.eqb (tx_user_id t) i then amount t else 0).
Proof.
  unfold ledger_sum, insert_coin_transaction. cbn [coin_transactions].
  rewrite filter_app, map_app, fold_right_app. cbn [filter].
  generalize (map amount (filter (fun t0 => Nat.eqb (tx_user_id t0) i)
                                 (coin_transactions d))).
  intro l. destruct (Nat.eqb (tx_user_id t) i); cbn [map fold_right].
  - induction l as [|x l IH]; simpl; [lia|]. rewrite IH. lia.
  - lia.
Qed.

Lemma split_after_word (w rest : string) :
  blank_free w = true ->
  split " " (w ++ String " " rest) = w :: split " " rest.
Proof.
  unfold blank_free, chars. induction w as [|c w IH]; simpl; [reflexivity|].
  destruct (Ascii.eqb c " "); simpl; [discriminate|].
  intro H. now rewrite IH.
Qed.

(** X25: [authenticateToken] reads the second word of the Authorization
    header and does not look at the first: any scheme word, even an empty
    one, in front of the token is accepted, and a token sent on its own,
    without a scheme word, is refused as missing. *)
Theorem bearer_ignores_the_scheme (scheme token : string) :
  blank_free scheme = true -> blank_free token = true -> token <> "" ->
  bearer (Some (scheme ++ " " ++ token)) = Some token
  /\ bearer (Some token) = None.
Proof.
  intros Hs Ht Hne. unfold bearer. split.
  - change (scheme ++ " " ++ token) with (scheme ++ String " " token).
    rewrite split_after_word, split_blank_free by assumption.
    cbn [nth_error].
    destruct (String.eqb_spec token ""); [contradiction|].
    destruct scheme; reflexivity.
  - rewrite split_blank_free by assumption. cbn [nth_error].
    now destruct (String.eqb token "").
Qed.

Lemma bearer_ignores_the_scheme_witness :
  bearer (Some ("Basic" ++ " " ++ "abc.def")) = Some "abc.def"
  /\ bearer (Some "abc.def") = None.
Proof.
  apply (bearer_ignores_the_scheme "Basic" "abc.def").
  - reflexivity.
  - reflexivity.
  - discriminate.
Defined.

Section AdminAndProfile.

Context {P : Platform}.

(** X21: registering never makes an admin, and nothing the server does
    later turns the account into one: whatever follows a registration
    that answered 200, the two admin routes modelled here answer 403
    "Admin access required" to the account it created, and the env update
    changes nothing. *)
Theorem registered_account_is_never_admin
        o name mail pw code d res d' (l : list action) :
  post_register o name mail pw code d = (res, d') ->
  status res = 200%nat ->
  exists userId shown,
    body res = JsonRegistered (jwt_sign userId mail) userId name mail shown
    /\ admin_bots userId (acts l d')
       = ReplyError 403 "Admin access required"
    /\ forall botId vars,
         admin_update_env userId botId vars (acts l d')
         = (ReplyError 403 "Admin access required", acts l d').
Proof.
  intros Hreg Hok.
  destruct (post_register_new_row _ _ _ _ _ _ _ _ Hreg Hok)
    as (earlier & c & shown & Husers & Hpk & _ & _ & ->).
  exists (next_uuid d), shown. split; [reflexivity|].
  assert (Hfind : find (by_id (next_uuid d)) (users d')
                  = Some (registered o name mail pw code d c)).
  { rewrite Husers. apply find_snoc_only;
      [now apply find_absent | apply Nat.eqb_refl]. }
  destruct (accounts_kept_find _ _ _ _
              (statements_accounts_kept _ _ (acts_statements l d')) Hfind)
    as (u' & Hfind' & Hsame).
  destruct Hsame as (_ & _ & _ & _ & _ & _ & _ & Hadmin & _).
  cbn [registered is_admin] in Hadmin.
  unfold admin_bots, admin_update_env, select_user.
  rewrite Hfind', Hadmin. split; reflexivity.
Qed.


(** X23: the referral code a profile shows leads back to the account.
    With the unique columns duplicate-free, GET /api/profile returns the
    row of the caller, and a registration quoting the referral code of
    that profile resolves the caller as its referrer. *)
Theorem profile_referral_code_resolves userId d u :
  keys_unique (users d) ->
  select_user (by_id userId) d = Some u ->
  referral_code u <> "" ->
  get_profile userId d = ReplyProfile (Some (profile_of u))
  /\ resolve_referrer (Some (profile_referral_code (profile_of u))) d
     = Some userId.
Proof.
  intros (_ & _ & _ & Hcodes) Hu Hne. unfold get_profile. rewrite Hu.
  split; [reflexivity|]. cbn [profile_of profile_referral_code].
  unfold resolve_referrer, select_user in *.
  destruct (String.eqb_spec (referral_code u) ""); [contradiction|].
  destruct (find_some _ _ Hu) as [Hin Hid].
  destruct (find (by_referral_code (referral_code u)) (users d)) as [v|]
    eqn:Hv.
  - destruct (find_some _ _ Hv) as [Hvin Hvcode].
    unfold by_referral_code in Hvcode. apply String.eqb_eq in Hvcode.
    rewrite (unique_by _ referral_code v u Hcodes Hvin Hin Hvcode).
    cbn [option_map]. f_equal. unfold by_id in Hid. now apply Nat.eqb_eq.
  - exfalso. apply (find_none _ _ Hv) in Hin.
    unfold by_referral_code in Hin. now rewrite String.eqb_refl in Hin.
Qed.

(** X24: with the triggers installed, a daily claim that is paid on a new
    day is recorded: the balance and the ledger sum of the account both
    rise by 10. *)
Theorem paid_claim_is_recorded o userId d u :
  triggers = true ->
  filter (by_id userId) (users d) = [u] ->
  strict_eq (read_last_coin_claim u) (JString (today o)) = false ->
  last_coin_claim u <> Some (today o) ->
  0 <= coins u -> coins u + 10 <= 2147483647 ->
  let d' := snd (claim_daily_coins o userId d) in
  balance userId d' = Some (coins u + 10)
  /\ ledger_sum userId d' = ledger_sum userId d + 10.
Proof.
  intros Htrig Hone Hguard Hday Hlo Hhi.
  destruct (claim_daily_coins_pays o userId d u Hone Hguard Hlo Hhi)
    as (d1 & Hclaim & Hfind & Hledger).
  rewrite Hclaim. cbn [snd]. unfold balance. rewrite Hfind. split;
    [reflexivity|].
  assert (Hdistinct : is_distinct_from (last_coin_claim u) (Some (today o))
                      = true).
  { unfold is_distinct_from. destruct (last_coin_claim u) as [x|];
      [|reflexivity].
    destruct (String.eqb_spec x (today o)); [subst; contradiction|].
    reflexivity. }
  rewrite Htrig, Hdistinct in Hledger. cbn [andb] in Hledger.
  pose proof (ledger_sum_insert userId
                (mkTx userId 10 daily_claim "Daily coin claim" None) d) as Hs.
  cbn [tx_user_id amount] in Hs. rewrite Nat.eqb_refl in Hs.
  rewrite <- Hs. unfold ledger_sum, insert_coin_transaction.
  cbn [coin_transactions]. now rewrite Hledger.
Qed.

End AdminAndProfile.

Lemma registered_account_is_never_admin_witness :
  let d' := run (P := postgres) [signup_alice] seeded_db in
  exists userId shown,
    body (respond 200 (JsonRegistered (model_sign 2 "alice@example.com") 2
                                      "alice" "alice@example.com" 0))
    = JsonRegistered (jwt_sign (Platform := postgres) userId
                               "alice@example.com")
                     userId "alice" "alice@example.com" shown
    /\ admin_bots userId (acts (P := postgres) busy_week d')
       = ReplyError 403 "Admin access required"
    /\ forall botId vars,
         admin_update_env userId botId vars (acts (P := postgres) busy_week d')
         = (ReplyError 403 "Admin access required",
            acts (P := postgres) busy_week d').
Proof.
  apply (registered_account_is_never_admin (P := postgres)
           (mkIo "AB12CD" "k3x9tok1" "2026-11-01" true)
           "alice" "alice@example.com" "correct horse" None seeded_db
           (respond 200 (JsonRegistered (model_sign 2 "alice@example.com") 2
                                        "alice" "alice@example.com" 0))
           (run (P := postgres) [signup_alice] seeded_db) busy_week).
  - vm_compute; reflexivity.
  - reflexivity.
Defined.


Lemma profile_referral_code_resolves_witness :
  get_profile 1 seeded_db
  = ReplyProfile (Some (mkProfile 1 "testuser" "test@example.com" 100
                                  "TEST456"))
  /\ resolve_referrer (Some "TEST456") seeded_db = Some 1%nat.
Proof.
  apply (profile_referral_code_resolves 1 seeded_db
           (mkUser 1 "testuser" "test@example.com"
              "$2a$12$rD9P2bW6X3L1V7Q8Z9Y0OuKj2N3L4M5Q6R7S8T9U0V1W2X3Y4Z5"
              "TEST456" None None true false 100 None)).
  - unfold keys_unique. simpl.
    repeat split; repeat constructor; simpl; intuition discriminate.
  - vm_compute; reflexivity.
  - discriminate.
Defined.

Lemma paid_claim_is_recorded_witness :
  let d := run (P := postgres) [signup_alice] empty_db in
  let d' := snd (claim_daily_coins (P := postgres) (on_day "2026-11-02") 0 d)
  in
  balance 0 d' = Some (0 + 10)
  /\ ledger_sum 0 d' = ledger_sum 0 d + 10.
Proof.
  apply (paid_claim_is_recorded (P := postgres) (on_day "2026-11-02") 0
           (run (P := postgres) [signup_alice] empty_db)
           (mkUser 0 "alice" "alice@example.com" "$2a$12$correct horse"
                   "aliceAB12CD" None (Some "k3x9tok1") false false 0 None)).
  - reflexivity.
  - vm_compute; reflexivity.
  - reflexivity.
  - discriminate.
  - vm_compute. discriminate.
  - vm_compute. discriminate.
Defined.

(** ** One account's requests and the other accounts *)

Section Isolation.

Context {P : Platform}.

Lemma update_by_id_others userId set d rows d' j :
  (forall u, id (set u) = id u) ->
  update_users (by_id userId) set d = Some (rows, d') ->
  j <> userId ->
  select_user (by_id j) d' = select_user (by_id j) d.
Proof.
  intros Hid Hup Hne. apply update_users_spec in Hup.
  destruct Hup as (_ & _ & U & _). unfold select_user. rewrite U.
  rewrite find_map_preserving.
  - destruct (find (by_id j) (users d)) as [u|] eqn:Hfind; [|reflexivity].
    cbn [option_map]. destruct (find_present _ _ _ Hfind) as [_ Hj].
    unfold by_id. rewrite Hj.
    destruct (Nat.eqb_spec j userId); [contradiction | reflexivity].
  - intro u. unfold by_id. destruct (Nat.eqb (id u) userId);
      [now rewrite Hid | reflexivity].
Qed.

(** X26: a daily claim and a deployment touch the caller's row only.
    Whatever they answer, the row of every other account, balance
    included, is after the call what it was before. *)
Theorem claims_and_deployments_touch_the_caller_only o userId r d j :
  j <> userId ->
  select_user (by_id j) (snd (claim_daily_coins o userId d))
  = select_user (by_id j) d
  /\ select_user (by_id j) (snd (deploy_bot userId r d))
     = select_user (by_id j) d.
Proof.
  intro Hne. split.
  - unfold claim_daily_coins.
    destruct (select_user (by_id userId) d); [|reflexivity].
    destruct (strict_eq _ _); [reflexivity|].
    destruct (update_users _ _ d) as [[rows d1]|] eqn:Hup; [|reflexivity].
    apply (update_by_id_others _ _ _ _ _ j) in Hup;
      [|reflexivity | assumption].
    destruct (select_user (by_id userId) d1); exact Hup.
  - unfold deploy_bot.
    destruct (select_user (by_id userId) d) as [u|]; [|reflexivity].
    destruct (coins u <? 50); [reflexivity|].
    destruct (update_users _ _ d) as [[rows d1]|] eqn:Hup; [|reflexivity].
    apply (update_by_id_others _ _ _ _ _ j) in Hup;
      [|reflexivity | assumption].
    destruct (insert_bots userId r d1) as [[b d2]|] eqn:Hb; cbn [snd];
      [|exact Hup].
    apply insert_bots_users in Hb. unfold select_user in *. now rewrite Hb.
Qed.


End Isolation.

Lemma claims_and_deployments_touch_the_caller_only_witness :
  let d := run (P := postgres) (five_claims ++ [signup_bob]) empty_db in
  select_user (by_id 1)
              (snd (claim_daily_coins (P := postgres) (on_day "2026-11-07")
                                      0 d))
  = select_user (by_id 1) d
  /\ select_user (by_id 1) (snd (deploy_bot (P := postgres) 0 valid_bot d))
     = select_user (by_id 1) d.
Proof.
  apply (claims_and_deployments_touch_the_caller_only (P := postgres)
           (on_day "2026-11-07") 0 valid_bot
           (run (P := postgres) (five_claims ++ [signup_bob]) empty_db) 1).
  discriminate.
Defined.


(** ** The server without the triggers *)

Section WithoutTriggers.

Context {P : Platform}.

Lemma statement_without_triggers d d' :
  triggers = false -> statement d d' ->
  coin_transactions d' = coin_transactions d /\ referrals d' = referrals d.
Proof.
  intros Hoff Hs. destruct Hs as
      [cond set d rows d' Hset Hup
      | name mail pw code referrer token c d row d' Hin
      | userId r d b d' Hb
      | userId m d row d' Hm
      | botId d
      | botId vars d].
  - unfold update_users in Hup. rewrite Hoff in Hup.
    destruct (forallb _ _); [|discriminate].
    now injection Hup as _ <-.
  - unfold insert_users in Hin. rewrite Hoff in Hin.
    destruct (_ && _)%bool; [|discriminate].
    now injection Hin as _ <-.
  - apply insert_bots_shape in Hb. now destruct Hb as (_ & _ & -> & -> & _).
  - apply insert_community_messages_shape in Hm.
    now destruct Hm as (_ & _ & -> & -> & _).
  - split; reflexivity.
  - split; reflexivity.
Qed.

(** X28: the routes themselves never write the ledger or the referral
    table.  On a database without the triggers of the schema, whatever
    the server does, [coin_transactions] and [referrals] stay as they
    were: only the triggers insert into them. *)
Theorem routes_write_no_ledger_and_no_referral (l : list action) (d : db) :
  triggers = false ->
  coin_transactions (acts l d) = coin_transactions d
  /\ referrals (acts l d) = referrals d.
Proof.
  intro Hoff. pose proof (acts_statements l d) as Hs.
  induction Hs as [d|d1 d2 d3 _ IH Hs]; [split; reflexivity|].
  destruct IH as [IH1 IH2].
  destruct (statement_without_triggers _ _ Hoff Hs) as [-> ->]. auto.
Qed.

End WithoutTriggers.

Lemma routes_write_no_ledger_and_no_referral_witness :
  coin_transactions (acts (P := no_triggers) busy_week empty_db) = []
  /\ referrals (acts (P := no_triggers) busy_week empty_db) = [].
Proof.
  apply (routes_write_no_ledger_and_no_referral (P := no_triggers) busy_week
           empty_db).
  reflexivity.
Defined.
